(** * litefs: the fixed-primary Leaser, its Lease, and the checks of the
      command's test-suite

    Shallow embedding of [fixedprimary/fixedprimary.go] and of the
    assertions of [cmd/litefs/main_test.go].

    Go values are modelled as follows.
    - [string] and [[]byte] are [string] (a list of bytes); the conversion
      [string(b)] is the identity.
    - [time.Time] is a number of nanoseconds on the wall clock ([Z]);
      [time.Duration] is an [int64] count of nanoseconds ([Z]).
    - [*Leaser] is an address into a heap of Leasers; methods with a pointer
      receiver read and write the heap, methods with a value receiver work
      on their own copy of the receiver.
    - [error] is [option]: [None] is [nil].
    - The outside world (the HTTP endpoint, the clock, the log) is part of
      an explicit [World] threaded through a state monad; dereferencing an
      address that is not allocated is the only way a computation stops
      ([None], Go's nil-pointer panic). *)

From Stdlib Require Import ZArith String Ascii List Bool Lia.
From stdpp Require Import base option list.

Set Warnings "-register-all".

Local Open Scope string_scope.
Local Open Scope Z_scope.

(** ** The world a Leaser runs in *)

Module Go.

(** [time.Time] and [time.Duration], in nanoseconds. *)
Definition Time := Z.
Definition Duration := Z.

(** [math.MaxInt64] *)
Definition MaxInt64 : Z := 9223372036854775807.
Definition MinInt64 : Z := -9223372036854775808.

Definition int64_range (d : Z) : Prop := MinInt64 <= d <= MaxInt64.

(** [resp.Body]: the bytes [io.ReadAll] gets out of it and the error it
    stops with ([None]: clean end of file). [io.ReadAll] returns the bytes
    read so far together with the error. *)
Record Body := mkBody {
  data : string;
  readErr : option string
}.

(** Result of [http.Get url]: a transport error, or a response. *)
Inductive GetResult :=
| GetErr (e : string)
| GetOk (body : Body).

End Go.

Import Go.

(** The two sentinel errors of package [litefs] that [Acquire] returns. *)
Inductive error :=
| ErrNoPrimary
| ErrPrimaryExists.

(** A [*Leaser]: an index into the heap of Leasers. *)
Abbreviation ptr := nat (only parsing).

(** [type Leaser struct] *)
Record Leaser := mkLeaser {
  primaryURL : string;
  id : string;
  primaryID : string
}.

(** [type Lease struct] *)
Record Lease := mkLease {
  leaser : ptr;
  renewedAt : Time
}.

Record World := mkWorld {
  leasers : list Leaser;          (* the heap of allocated Leasers *)
  net : string -> GetResult;      (* what a GET of each URL yields *)
  clock : Time;                   (* what time.Now() reads *)
  requests : list string;         (* URLs requested so far, oldest first *)
  logged : list string            (* lines printed by log.Printf *)
}.

(** ** A state monad over the world, with failure for a panic *)

Definition M (A : Type) : Type := World -> option (A * World).

Definition ret {A} (a : A) : M A := fun w => Some (a, w).

Definition bind {A B} (m : M A) (k : A -> M B) : M B :=
  fun w => match m w with
           | Some (a, w') => k a w'
           | None => None
           end.

Notation "x <- m ;; k" := (bind m (fun x => k))
  (at level 100, m at next level, k at level 200, right associativity).
Notation "m ;;; k" := (bind m (fun _ => k))
  (at level 100, k at level 200, right associativity).

(** The value a computation returns, forgetting the world it leaves. *)
Definition eval {A} (m : M A) (w : World) : option A := fst <$> m w.
(** The world a computation leaves. *)
Definition exec {A} (m : M A) (w : World) : option World := snd <$> m w.

(** *** Primitive effects *)

(** [*l] *)
Definition load (l : ptr) : M Leaser :=
  fun w => match leasers w !! l with
           | Some v => Some (v, w)
           | None => None
           end.

(** [*l = v] *)
Definition store (l : ptr) (v : Leaser) : M unit :=
  fun w => match leasers w !! l with
           | Some _ =>
               Some (tt, mkWorld (<[l:=v]> (leasers w)) (net w) (clock w)
                                 (requests w) (logged w))
           | None => None
           end.

(** [&Leaser{...}] *)
Definition alloc (v : Leaser) : M ptr :=
  fun w => Some (length (leasers w),
                 mkWorld (leasers w ++ [v]) (net w) (clock w)
                         (requests w) (logged w)).

(** [http.Get(url)] *)
Definition http_Get (url : string) : M GetResult :=
  fun w => Some (net w url,
                 mkWorld (leasers w) (net w) (clock w)
                         (requests w ++ [url]) (logged w)).

(** [io.ReadAll(body)] *)
Definition io_ReadAll (b : Body) : M (string * option string) :=
  ret (data b, readErr b).

(** [time.Now()] *)
Definition time_Now : M Time := fun w => Some (clock w, w).

(** [log.Printf(msg)] *)
Definition log_Printf (msg : string) : M unit :=
  fun w => Some (tt, mkWorld (leasers w) (net w) (clock w)
                             (requests w) (logged w ++ [msg])).

(** ** Package fixedprimary *)

Module fixedprimary.

(** The endpoint [Acquire] polls. *)
Definition instanceIDURL : string := "http://localhost:20101/instance/id".

(** [func NewLeaser(primaryURL string, id string) *Leaser] *)
Definition NewLeaser (primaryURL id : string) : M ptr :=
  alloc {| primaryURL := primaryURL; id := id; primaryID := "" |}.

(** [func (l *Leaser) Close() (err error)] *)
Definition Leaser_Close (l : ptr) : M (option error) := ret None.

(** [func (l *Leaser) AdvertiseURL() string] *)
Definition AdvertiseURL (l : ptr) : M string := ret "".

(** [func (l *Leaser) IsPrimary() bool] *)
Definition IsPrimary (l : ptr) : M bool :=
  v <- load l ;;
  ret (String.eqb (primaryID v) (id v)).

(** [func (l *Leaser) PrimaryURL(ctx) (string, error)] *)
Definition PrimaryURL (l : ptr) : M (string * option error) :=
  v <- load l ;;
  if String.eqb (primaryID v) "" then ret ("", None)
  else ret (primaryURL v, None).

(** [func (l *Leaser) Acquire(ctx) (litefs.Lease, error)] *)
Definition Acquire (l : ptr) : M (option Lease * option error) :=
  r <- http_Get instanceIDURL ;;
  match r with
  | GetErr _ =>
      log_Printf "Failed to reach primary for instance id" ;;;
      ret (None, Some ErrNoPrimary)
  | GetOk body =>
      (* the error of io.ReadAll is assigned and never inspected *)
      rd <- io_ReadAll body ;;
      v <- load l ;;
      store l {| primaryURL := primaryURL v; id := id v;
                 primaryID := fst rd |} ;;;
      isPrimary <- IsPrimary l ;;
      if negb isPrimary then ret (None, Some ErrPrimaryExists)
      else
        now <- time_Now ;;
        ret (Some {| leaser := l; renewedAt := now |}, None)
  end.

(** [func (l Lease) RenewedAt() time.Time] *)
Definition RenewedAt (l : Lease) : Time := renewedAt l.

(** [func (l Lease) TTL() time.Duration] *)
Definition TTL (l : Lease) : Duration := MaxInt64.

(** [func (l Lease) Renew(ctx) error].  The receiver is passed by value:
    the assignment updates the method's own copy, which is dropped when
    the method returns. *)
Definition Renew (l : Lease) : M (option error) :=
  now <- time_Now ;;
  let l := {| leaser := leaser l; renewedAt := now |} in
  ret None.

(** [func (l Lease) Close() error] *)
Definition Lease_Close (l : Lease) : M (option error) := ret None.

End fixedprimary.

(** Time passing between two calls: the environment moves the clock
    forward by [d] nanoseconds. *)
Definition elapse (d : Duration) : M unit :=
  fun w => Some (tt, mkWorld (leasers w) (net w) (clock w + d)
                             (requests w) (logged w)).

(** The method set of [litefs.Lease], the interface type [Acquire] returns
    its Lease as.  A value of the interface holds the implementing value
    itself: here a [Lease] struct, not a pointer to one. *)
Class LeaseMethods (L : Type) := {
  lease_RenewedAt : L -> Time;
  lease_TTL : L -> Duration;
  lease_Renew : L -> M (option error);
  lease_Close : L -> M (option error)
}.

#[export] Instance fixedprimary_Lease : LeaseMethods Lease := {
  lease_RenewedAt := fixedprimary.RenewedAt;
  lease_TTL := fixedprimary.TTL;
  lease_Renew := fixedprimary.Renew;
  lease_Close := fixedprimary.Lease_Close
}.

(** A caller that renews a lease it holds and then reads [RenewedAt] from
    it: [err := l.Renew(ctx); t := l.RenewedAt()]. *)
Definition renew_then_read {L} `{LeaseMethods L} (l : L)
    : M (option error * Time) :=
  err <- lease_Renew l ;;
  ret (err, lease_RenewedAt l).

(** Modelled from the spec: the validity window of a Lease (section 3, "a
    Lease is valid strictly until renewedAt + TTL"); no code under
    fixedprimary/ computes it. *)
Definition expiry (l : Lease) : Time :=
  fixedprimary.RenewedAt l + fixedprimary.TTL l.

Definition valid_at (l : Lease) (now : Time) : bool := now <? expiry l.

(** ** Operating-system errors as Go prints and classifies them *)

Module syscall.

Inductive Errno := EPERM | ENOENT | EACCES | EROFS.

(** [func (e Errno) Error() string] on Linux. *)
Definition Error (e : Errno) : string :=
  match e with
  | EPERM => "operation not permitted"
  | ENOENT => "no such file or directory"
  | EACCES => "permission denied"
  | EROFS => "read-only file system"
  end.

(** [e.Is(fs.ErrPermission)] *)
Definition IsPermission (e : Errno) : bool :=
  match e with
  | EACCES | EPERM => true
  | _ => false
  end.

(** [e.Is(fs.ErrNotExist)] *)
Definition IsNotExist (e : Errno) : bool :=
  match e with
  | ENOENT => true
  | _ => false
  end.

End syscall.

(** ** The write path of a node

    The Store and the filesystem adapter are not among the sources; the
    test [TestMultiNode_EnsureReadOnlyReplica] only drives them through the
    database driver. *)

Module store.

(** Modelled from the spec: the role of a node (section 3, "Node role"),
    which the Store and the filesystem adapter, both absent from the
    sources, act on. *)
Inductive Role := Candidate | Primary | Replica.

(** Modelled from the spec: a Database (section 3), of which the Store's
    code is absent: its current TXID, its pages (page number and bytes, the
    latest write of a page first), and the pages written since the last
    commit boundary. *)
Record Database := mkDatabase {
  TXID : Z;
  pages : list (Z * string);
  dirty : list (Z * string)
}.

(** Modelled from the spec: the Store (sections 2 and 4.2), absent from the
    sources: the role of the node and the databases it manages, by
    identifier. *)
Record Store := mkStore {
  role : Role;
  databases : list (Z * Database)
}.

(** Modelled from the spec: [isPrimary()] of section 6, absent from the
    sources. *)
Definition isPrimary (s : Store) : bool :=
  match role s with
  | Primary => true
  | _ => false
  end.

(** Modelled from the spec: the calls of section 6 by which the filesystem
    adapter, absent from the sources, writes: [beginWrite(dbID)],
    [writePage(dbID, pageNo, bytes)] and [commit(dbID)]. *)
Inductive WriteCall :=
| beginWrite (dbID : Z)
| writePage (dbID pageNo : Z) (bytes : string)
| commit (dbID : Z).

(** Modelled from the spec: the error of section 7 a write can meet,
    [WriteRejected]. *)
Inductive WriteError := WriteRejected.

Fixpoint get_db (dbID : Z) (dbs : list (Z * Database)) : option Database :=
  match dbs with
  | [] => None
  | (k, d) :: rest => if k =? dbID then Some d else get_db dbID rest
  end.

Fixpoint put_db (dbID : Z) (d : Database) (dbs : list (Z * Database))
    : list (Z * Database) :=
  match dbs with
  | [] => [(dbID, d)]
  | (k, d0) :: rest =>
      if k =? dbID then (k, d) :: rest else (k, d0) :: put_db dbID d rest
  end.

(** Modelled from the spec: a database comes to be when it is first
    observed (section 3, lifecycle), at TXID 0 and with no page. *)
Definition observe (dbID : Z) (s : Store) : Database :=
  match get_db dbID (databases s) with
  | Some d => d
  | None => mkDatabase 0 [] []
  end.

(** Modelled from the spec: what a write call does on the Primary
    (section 4.3): pages gather until the commit boundary, where they
    become visible together and the TXID advances by one. *)
Definition apply_write (c : WriteCall) (s : Store) : Store * option Z :=
  match c with
  | beginWrite dbID =>
      let d := observe dbID s in
      (mkStore (role s)
         (put_db dbID (mkDatabase (TXID d) (pages d) []) (databases s)),
       None)
  | writePage dbID pageNo bytes =>
      let d := observe dbID s in
      (mkStore (role s)
         (put_db dbID
            (mkDatabase (TXID d) (pages d) ((pageNo, bytes) :: dirty d))
            (databases s)),
       None)
  | commit dbID =>
      let d := observe dbID s in
      (mkStore (role s)
         (put_db dbID
            (mkDatabase (TXID d + 1) (dirty d ++ pages d) [])
            (databases s)),
       Some (TXID d + 1))
  end.

(** Modelled from the spec: the Store's answer to a write call of the
    adapter, whose code is absent (sections 4.2, 6 and 7): a node that is
    not Primary rejects it with [WriteRejected] and does nothing else; the
    Primary carries it out, [commit] returning the new TXID. *)
Definition write (c : WriteCall) (s : Store)
    : Store * (WriteError + option Z) :=
  if isPrimary s
  then let '(s', txid) := apply_write c s in (s', inr txid)
  else (s, inl WriteRejected).

(** Modelled from the spec: how the filesystem adapter, absent from the
    sources, surfaces the Store's error to its caller (section 4.2,
    "surfaced by the filesystem adapter as a permission error").  The spec
    fixes the class of the error, not its number. *)
Definition surface (e : WriteError) : syscall.Errno :=
  match e with
  | WriteRejected => syscall.EACCES
  end.

(** Modelled from the spec: a write through the filesystem adapter
    (section 6): the error number its caller gets ([None]: success). *)
Definition adapter_write (c : WriteCall) (s : Store)
    : Store * option syscall.Errno :=
  match write c s with
  | (s', inl e) => (s', Some (surface e))
  | (s', inr _) => (s', None)
  end.

(** A sequence of writes through the adapter, and what the caller gets for
    each of them. *)
Fixpoint adapter_writes (cs : list WriteCall) (s : Store)
    : Store * list (option syscall.Errno) :=
  match cs with
  | [] => (s, [])
  | c :: rest =>
      let '(s1, r) := adapter_write c s in
      let '(s2, rs) := adapter_writes rest s1 in
      (s2, r :: rs)
  end.

(** The caller got a permission error, and an error of no other class. *)
Definition permission_error (r : option syscall.Errno) : bool :=
  match r with
  | Some e => syscall.IsPermission e && negb (syscall.IsNotExist e)
  | None => false
  end.

End store.

(** ** cmd/litefs/main_test.go *)

Module main_test.

Definition Second : Duration := 1000000000.

(** [main.Config], with the fields the tests read and write. *)
Record HTTPConfig := mkHTTP { Addr : string }.

Record ConsulConfig := mkConsul {
  URL : string;
  Key : string;
  TTL : Duration;
  LockDelay : Duration
}.

Record Config := mkConfig {
  MountDir : string;
  Debug : bool;
  HTTP : HTTPConfig;
  Consul : ConsulConfig
}.

(** *** TestMultiNode_EnsureReadOnlyReplica *)

(** The text the test requires of the error of the replica's INSERT. *)
Definition replicaWriteWant : string :=
  "unable to open database file: no such file or directory".

(** The last [if] of the test, on what [db1.Exec] returned on the replica
    ([None]: [err == nil], [Some msg]: [err.Error() = msg]); [true] when
    the test calls [t.Fatalf]. *)
Definition EnsureReadOnlyReplica_fatal (err : option string) : bool :=
  match err with
  | None => true
  | Some msg => negb (String.eqb msg replicaWriteWant)
  end.

Definition EnsureReadOnlyReplica_passes (err : option string) : bool :=
  negb (EnsureReadOnlyReplica_fatal err).

(** *** TestConfigExample *)

(** The seven comparisons of the test; [true] when none calls
    [t.Fatalf]. *)
Definition ConfigExample_passes (config : Config) : bool :=
  String.eqb (MountDir config) "/path/to/mnt"
  && Bool.eqb (Debug config) false
  && String.eqb (Addr (HTTP config)) ":20202"
  && String.eqb (URL (Consul config)) "http://localhost:8500"
  && String.eqb (Key (Consul config)) "litefs/primary"
  && (TTL (Consul config) =? 10 * Second)
  && (LockDelay (Consul config) =? 5 * Second).

End main_test.

(** ** The configuration loader

    [main.NewConfig], the [Config] declaration with its YAML keys, and the
    example file [etc/litefs.yml] are not among the sources; the test only
    shows the fields and the values expected of the example. *)

Module yaml.

(** A decoded document: scalars and mappings from keys to nodes. *)
Inductive Node :=
| Scalar (s : string)
| Mapping (kvs : list (string * Node)).

(** The value of the first entry for [key]. *)
Fixpoint get (key : string) (kvs : list (string * Node)) : option Node :=
  match kvs with
  | [] => None
  | (k, v) :: rest => if String.eqb k key then Some v else get key rest
  end.

End yaml.

Module config.

Import main_test yaml.

Inductive DecodeError :=
| NotAMapping (key : string)
| NotAScalar (key : string)
| BadBool (key : string)
| BadDuration (key : string).

Inductive Result (A : Type) :=
| Ok (a : A)
| Err (e : DecodeError).
Arguments Ok {A} a.
Arguments Err {A} e.

Definition and_then {A B} (r : Result A) (k : A -> Result B) : Result B :=
  match r with
  | Ok a => k a
  | Err e => Err e
  end.

Definition is_digit (c : ascii) : bool :=
  (48 <=? nat_of_ascii c)%nat && (nat_of_ascii c <=? 57)%nat.

Definition digit_val (c : ascii) : Z := Z.of_nat (nat_of_ascii c) - 48.

(** The number written by the leading decimal digits, and the rest. *)
Fixpoint leadingInt (s : string) (acc : Z) : Z * string :=
  match s with
  | String c r =>
      if is_digit c then leadingInt r (acc * 10 + digit_val c) else (acc, s)
  | EmptyString => (acc, s)
  end.

(** The leading run of characters that can belong to a unit, and the
    rest. *)
Fixpoint leadingUnit (s : string) : string * string :=
  match s with
  | String c r =>
      if is_digit c || Ascii.eqb c "." then (EmptyString, s)
      else let (u, rest) := leadingUnit r in (String c u, rest)
  | EmptyString => (EmptyString, EmptyString)
  end.

Definition unitNs (u : string) : option Z :=
  if String.eqb u "ns" then Some 1
  else if String.eqb u "us" then Some 1000
  else if String.eqb u "ms" then Some 1000000
  else if String.eqb u "s" then Some Second
  else if String.eqb u "m" then Some (60 * Second)
  else if String.eqb u "h" then Some (3600 * Second)
  else None.

Fixpoint parseTerms (fuel : nat) (s : string) (acc : Z) : option Z :=
  match s with
  | EmptyString => Some acc
  | String c _ =>
      match fuel with
      | O => None
      | S fuel' =>
          if is_digit c then
            let (n, r) := leadingInt s 0 in
            let (u, r') := leadingUnit r in
            match unitNs u with
            | Some k => parseTerms fuel' r' (acc + n * k)
            | None => None
            end
          else None
      end
  end.

(** Modelled from the spec: the reading of "a duration string"
    (section 6, consul.ttl and consul.lockDelay), whose parser is not
    among the sources.  A duration string is an optional sign followed by
    one or more terms, each a decimal integer and a unit among ns, us,
    ms, s, m, h, or the single string 0; the result must fit an [int64].
    Fractional terms are outside this model. *)
Definition ParseDuration (s : string) : option Duration :=
  let '(neg, s') :=
    match s with
    | String "-" r => (true, r)
    | String "+" r => (false, r)
    | _ => (false, s)
    end in
  if String.eqb s' "0" then Some 0
  else if String.eqb s' "" then None
  else match parseTerms (String.length s') s' 0 with
       | Some d =>
           if d <=? MaxInt64 then Some (if neg then - d else d) else None
       | None => None
       end.

Definition decodeString (key : string) (kvs : list (string * Node))
    (dflt : string) : Result string :=
  match get key kvs with
  | None => Ok dflt
  | Some (Scalar s) => Ok s
  | Some (Mapping _) => Err (NotAScalar key)
  end.

Definition decodeBool (key : string) (kvs : list (string * Node))
    (dflt : bool) : Result bool :=
  match get key kvs with
  | None => Ok dflt
  | Some (Scalar s) =>
      if String.eqb s "true" then Ok true
      else if String.eqb s "false" then Ok false
      else Err (BadBool key)
  | Some (Mapping _) => Err (NotAScalar key)
  end.

Definition decodeDuration (key : string) (kvs : list (string * Node))
    (dflt : Duration) : Result Duration :=
  match get key kvs with
  | None => Ok dflt
  | Some (Scalar s) =>
      match ParseDuration s with
      | Some d => Ok d
      | None => Err (BadDuration key)
      end
  | Some (Mapping _) => Err (NotAScalar key)
  end.

Definition decodeConsul (n : option Node) (c : ConsulConfig)
    : Result ConsulConfig :=
  match n with
  | None => Ok c
  | Some (Scalar _) => Err (NotAMapping "consul")
  | Some (Mapping kvs) =>
      and_then (decodeString "url" kvs (URL c)) (fun url =>
      and_then (decodeString "key" kvs (Key c)) (fun key =>
      and_then (decodeDuration "ttl" kvs (TTL c)) (fun ttl =>
      and_then (decodeDuration "lockDelay" kvs (LockDelay c)) (fun ld =>
      Ok {| URL := url; Key := key; TTL := ttl; LockDelay := ld |}))))
  end.

(** Modelled from the spec: the configuration loader
    ([yaml.Unmarshal] into [main.Config]), which is not among the sources.
    The recognized options are those of section 6 (mountDir,
    consul.url/key/ttl/lockDelay, httpAddr) and the debug flag the test
    reads; a recognized option that is present overwrites the field of the
    configuration passed in, one that is absent leaves it, and any other
    key is ignored. *)
Definition Unmarshal (doc : Node) (c : Config) : Result Config :=
  match doc with
  | Scalar _ => Err (NotAMapping "")
  | Mapping kvs =>
      and_then (decodeString "mountDir" kvs (MountDir c)) (fun mountDir =>
      and_then (decodeBool "debug" kvs (Debug c)) (fun debug =>
      and_then (decodeString "httpAddr" kvs (Addr (HTTP c))) (fun addr =>
      and_then (decodeConsul (get "consul" kvs) (Consul c)) (fun consul =>
      Ok {| MountDir := mountDir; Debug := debug;
            HTTP := {| Addr := addr |}; Consul := consul |}))))
  end.

Definition bool_text (b : bool) : string := if b then "true" else "false".

(** Modelled from the spec: the example file [etc/litefs.yml], which is
    not among the sources, with the keys of section 6 and the values
    [TestConfigExample] expects. *)
Definition consulEntries : list (string * Node) :=
  [ ("url", Scalar "http://localhost:8500");
    ("key", Scalar "litefs/primary");
    ("ttl", Scalar "10s");
    ("lockDelay", Scalar "5s") ].

Definition litefsEntries : list (string * Node) :=
  [ ("mountDir", Scalar "/path/to/mnt");
    ("debug", Scalar "false");
    ("httpAddr", Scalar ":20202");
    ("consul", Mapping consulEntries) ].

Definition litefsConfig : Node := Mapping litefsEntries.

End config.

(** ** Worlds and outcomes used to state the properties *)

Import fixedprimary.

(** The Leaser at an address once [Acquire] has read [body] there. *)
Definition observed (v : Leaser) (body : Body) : Leaser :=
  {| primaryURL := primaryURL v; id := id v; primaryID := data body |}.

(** The world [Acquire l] leaves when it has read [body]. *)
Definition acquired (l : ptr) (v : Leaser) (w : World) (body : Body) : World :=
  mkWorld (<[l:=observed v body]> (leasers w)) (net w) (clock w)
          (requests w ++ [instanceIDURL]) (logged w).

(** The world [Acquire] leaves when the request failed. *)
Definition unreached (w : World) : World :=
  mkWorld (leasers w) (net w) (clock w)
          (requests w ++ [instanceIDURL])
          (logged w ++ ["Failed to reach primary for instance id"]).

(** [Acquire] returned a Lease (and not an error). *)
Definition got_lease (r : option Lease * option error) : bool :=
  match r with
  | (Some _, None) => true
  | _ => false
  end.

(** A network on which only the instance-id endpoint answers, with [r]. *)
Definition backend (r : GetResult) : string -> GetResult :=
  fun url => if String.eqb url instanceIDURL then r
             else GetErr "connection refused".

(** A world with the Leasers [vs] allocated, the given backend answer, the
    clock at [t], and nothing requested or logged yet. *)
Definition world_of (vs : list Leaser) (r : GetResult) (t : Time) : World :=
  mkWorld vs (backend r) t [] [].

(** Two nodes configured with the same primary URL and distinct ids. *)
Definition nodeA : Leaser :=
  {| primaryURL := "http://primary:20202"; id := "node-a"; primaryID := "" |}.

Definition nodeB : Leaser :=
  {| primaryURL := "http://primary:20202"; id := "node-b"; primaryID := "" |}.

(** The world in which the Leaser at [l] was configured with the primary
    URL [u] instead. *)
Definition with_primaryURL (u : string) (v : Leaser) : Leaser :=
  {| primaryURL := u; id := id v; primaryID := primaryID v |}.

Definition retarget (l : ptr) (u : string) (w : World) : World :=
  match leasers w !! l with
  | Some v =>
      mkWorld (<[l:=with_primaryURL u v]> (leasers w)) (net w) (clock w)
              (requests w) (logged w)
  | None => w
  end.

(** What [Acquire] returns is fixed by the answer of the endpoint and the
    [id] of the Leaser. *)
Definition outcome (l : ptr) (v : Leaser) (w : World)
    : option Lease * option error :=
  match net w instanceIDURL with
  | GetErr _ => (None, Some ErrNoPrimary)
  | GetOk body =>
      if String.eqb (data body) (id v)
      then (Some {| leaser := l; renewedAt := clock w |}, None)
      else (None, Some ErrPrimaryExists)
  end.

(** A caller that acquires the lease, lets [d] nanoseconds pass, renews,
    and reads the renewal time back; it reports the error of [Renew], the
    value of [RenewedAt] and the time at which it renewed. *)
Definition acquire_wait_renew (l : ptr) (d : Duration)
    : M (option (option error * Time * Time)) :=
  r <- Acquire l ;;
  match fst r with
  | None => ret None
  | Some lease =>
      elapse d ;;;
      renewal <- time_Now ;;
      res <- renew_then_read lease ;;
      ret (Some (fst res, snd res, renewal))
  end.

(** The environment replaces what the network answers. *)
Definition with_net (n : string -> GetResult) (w : World) : World :=
  mkWorld (leasers w) n (clock w) (requests w) (logged w).

(** ** Package fmt: integers under the verbs [%d] and [%x] *)

Module fmt.

(** [ldigits] *)
Definition ldigits : string := "0123456789abcdef".

Definition digit (d : Z) : ascii :=
  match String.get (Z.to_nat d) ldigits with
  | Some c => c
  | None => "0"%char
  end.

(** The loop of [fmtInteger]: while [u >= base], the digit of [u % base]
    is written in front of what is already there and [u] is divided by
    [base]; the last digit is that of [u]. *)
Fixpoint fmtUnsigned (fuel : nat) (base u : Z) (acc : string) : string :=
  match fuel with
  | O => acc
  | S fuel' =>
      if base <=? u
      then fmtUnsigned fuel' base (u / base) (String (digit (u mod base)) acc)
      else String (digit u) acc
  end.

(** One round of the loop per binary digit of [u] is more than enough. *)
Definition rounds (u : Z) : nat := S (Z.to_nat (Z.log2 u)).

Definition fmtInteger (base n : Z) : string :=
  if n <? 0 then String "-" (fmtUnsigned (rounds (- n)) base (- n) "")
  else fmtUnsigned (rounds n) base n "".

(** [fmt.Sprintf("%x", n)] *)
Definition Sprintf_x (n : Z) : string := fmtInteger 16 n.

(** [fmt.Sprintf("%d", n)] *)
Definition Sprintf_d (n : Z) : string := fmtInteger 10 n.

(** The number a digit stands for, and the number a string of digits
    stands for in a base: what a reader of the text recovers. *)
Definition digit_value (c : ascii) : Z :=
  let n := Z.of_nat (nat_of_ascii c) in
  if (48 <=? n) && (n <=? 57) then n - 48
  else if (97 <=? n) && (n <=? 102) then n - 87
  else 0.

Fixpoint value (base : Z) (s : string) : Z :=
  match s with
  | EmptyString => 0
  | String c r =>
      digit_value c * base ^ Z.of_nat (String.length r) + value base r
  end.

End fmt.

(** ** cmd/litefs/main_test.go: the helpers of the tests *)

Module main_helpers.

Import main_test.

(** [rand.Int31()] returns a non-negative 31-bit integer. *)
Definition int31_range (n : Z) : Prop := 0 <= n < 2 ^ 31.

(** The configuration [newMain] leaves in [m.Config]: every field the test
    knows is assigned, on top of what [main.NewMain()] returned ([c0]).
    [peer] is the configuration of the peer ([None] for [nil]); [rnd] is
    the value [rand.Int31()] returns, drawn only when there is no peer. *)
Definition newMain_Config (c0 : Config) (mountDir : string) (debug : bool)
    (peer : option Config) (rnd : Z) : Config :=
  let c := {| MountDir := mountDir; Debug := Debug c0;
              HTTP := HTTP c0; Consul := Consul c0 |} in
  let c := {| MountDir := MountDir c; Debug := debug;
              HTTP := HTTP c; Consul := Consul c |} in
  let c := {| MountDir := MountDir c; Debug := Debug c;
              HTTP := {| Addr := ":0" |}; Consul := Consul c |} in
  let consul :=
    {| URL := "http://localhost:8500"; Key := Key (Consul c);
       TTL := 2 * Second; LockDelay := 1 * Second |} in
  let key :=
    match peer with
    | Some p => Key (Consul p)
    | None => fmt.Sprintf_x rnd
    end in
  {| MountDir := MountDir c; Debug := Debug c; HTTP := HTTP c;
     Consul := {| URL := URL consul; Key := key;
                  TTL := TTL consul; LockDelay := LockDelay consul |} |}.

(** [m.AdvertiseURLFn], given the port [m.HTTPServer.Port()] returns. *)
Definition AdvertiseURLFn (port : Z) : string :=
  "http://localhost:" ++ fmt.Sprintf_d port.

(** What [waitForSync] reads of a node: [m.Store.DB(dbID)], and of the
    database it returns, if any, [TXID()]. *)
Definition Store := Z -> option Z.

(** The [for i, m := range mains] loop of the function [waitForSync]
    retries, from index [i] on; [None] when it runs to its end, [Some]
    the text of the error it returns early otherwise. *)
Fixpoint syncLoop (dbID txID : Z) (i : nat) (mains : list Store)
    : option string :=
  match mains with
  | [] => None
  | m :: rest =>
      match m dbID with
      | None =>
          Some ("no database on main[" ++ fmt.Sprintf_d (Z.of_nat i) ++ "]")
      | Some got =>
          if negb (got =? txID)
          then Some ("waiting for sync on db(" ++ fmt.Sprintf_d dbID
                     ++ "): [" ++ fmt.Sprintf_d got ++ ","
                     ++ fmt.Sprintf_d txID ++ "]")
          else syncLoop dbID txID (S i) rest
      end
  end.

(** One attempt of [waitForSync], the function it hands to [RetryUntil]:
    [None] when it panics (indexing [mains[0]] of no nodes), [Some (inl e)]
    when it returns the error [e], [Some (inr line)] when it logs [line]
    and returns nil. *)
Definition waitForSync_attempt (dbID : Z) (mains : list Store)
    : option (string + string) :=
  match mains with
  | [] => None
  | m0 :: _ =>
      match m0 dbID with
      | None => Some (inl "no database on main[0]")
      | Some txID =>
          match syncLoop dbID txID 0 mains with
          | Some e => Some (inl e)
          | None =>
              Some (inr (fmt.Sprintf_d (Z.of_nat (length mains))
                         ++ " processes synced for db " ++ fmt.Sprintf_d dbID
                         ++ " at tx " ++ fmt.Sprintf_d txID))
          end
      end
  end.

(** [waitForPrimary]'s attempt, given what [m.Store.IsPrimary()] returns. *)
Definition waitForPrimary_attempt (isPrimary : bool) : option string :=
  if negb isPrimary then Some "not primary" else None.

End main_helpers.

(** * Properties *)

(** ** Running the Leaser's methods *)

Lemma IsPrimary_run l v w :
  leasers w !! l = Some v ->
  IsPrimary l w = Some (String.eqb (primaryID v) (id v), w).
Proof. intros Hl. unfold IsPrimary, bind, load, ret. now rewrite Hl. Qed.

Lemma PrimaryURL_run l v w :
  leasers w !! l = Some v ->
  PrimaryURL l w =
  Some ((if String.eqb (primaryID v) "" then "" else primaryURL v, None), w).
Proof.
  intros Hl. unfold PrimaryURL, bind, load, ret. rewrite Hl.
  now destruct (String.eqb (primaryID v) "").
Qed.

Lemma acquired_lookup l v w body :
  leasers w !! l = Some v ->
  leasers (acquired l v w body) !! l = Some (observed v body).
Proof.
  intros Hl. simpl. apply list_lookup_insert_eq.
  now apply lookup_lt_Some with v.
Qed.

Lemma acquired_lookup_ne l l' v w body :
  l <> l' ->
  leasers (acquired l v w body) !! l' = leasers w !! l'.
Proof. intros Hne. simpl. now apply list_lookup_insert_ne. Qed.

Lemma Acquire_unreachable l w e :
  net w instanceIDURL = GetErr e ->
  Acquire l w = Some ((None, Some ErrNoPrimary), unreached w).
Proof.
  intros Hnet. unfold Acquire, bind, http_Get. simpl. now rewrite Hnet.
Qed.

Lemma Acquire_reachable l v w body :
  leasers w !! l = Some v ->
  net w instanceIDURL = GetOk body ->
  Acquire l w =
  Some (if String.eqb (data body) (id v)
        then (Some {| leaser := l; renewedAt := clock w |}, None)
        else (None, Some ErrPrimaryExists),
        acquired l v w body).
Proof.
  intros Hl Hnet.
  pose proof (IsPrimary_run _ _ _ (acquired_lookup l v w body Hl)) as Hp.
  unfold Acquire, bind, http_Get, io_ReadAll, ret, load, store.
  cbn [leasers net clock requests logged fst]. rewrite Hnet.
  cbn [leasers net clock requests logged fst]. rewrite Hl.
  cbn [leasers net clock requests logged fst primaryURL id].
  change (mkWorld _ _ _ _ _) with (acquired l v w body).
  rewrite Hl. cbn beta iota. rewrite Hp. unfold time_Now.
  cbn [observed primaryID id clock acquired].
  now destruct (String.eqb (data body) (id v)).
Qed.

Lemma Acquire_dangling l w body :
  leasers w !! l = None ->
  net w instanceIDURL = GetOk body ->
  Acquire l w = None.
Proof.
  intros Hl Hnet. unfold Acquire, bind, http_Get, io_ReadAll, ret, load.
  cbn [leasers net]. rewrite Hnet. cbn [leasers]. now rewrite Hl.
Qed.

Lemma Acquire_returns l v w :
  leasers w !! l = Some v ->
  exists w', Acquire l w = Some (outcome l v w, w')
             /\ net w' = net w /\ clock w' = clock w.
Proof.
  intros Hl. unfold outcome.
  destruct (net w instanceIDURL) as [e|body] eqn:Hnet.
  - exists (unreached w). now rewrite (Acquire_unreachable l w e Hnet).
  - exists (acquired l v w body).
    now rewrite (Acquire_reachable l v w body Hl Hnet).
Qed.

Lemma got_lease_outcome l v w :
  got_lease (outcome l v w) = true ->
  exists body, net w instanceIDURL = GetOk body /\ data body = id v.
Proof.
  unfold outcome. destruct (net w instanceIDURL) as [e|body]; [discriminate|].
  destruct (String.eqb_spec (data body) (id v)); [eauto | discriminate].
Qed.

(** ** Single primary *)

(** C1. Two Leasers with distinct ids that have observed the same
    primary-ID string are never both primary, and of two [Acquire] calls
    that get the same answer from the backend (whatever else the worlds they
    run in look like, so under any interleaving) both return, and at most
    one returns a Lease. *)
Theorem at_most_one_primary (l1 l2 : ptr) (v1 v2 : Leaser) (w1 w2 : World) :
  leasers w1 !! l1 = Some v1 ->
  leasers w2 !! l2 = Some v2 ->
  id v1 <> id v2 ->
  (primaryID v1 = primaryID v2 ->
   ~ (eval (IsPrimary l1) w1 = Some true /\ eval (IsPrimary l2) w2 = Some true))
  /\ (net w1 instanceIDURL = net w2 instanceIDURL ->
      exists r1 r2 w1' w2',
        Acquire l1 w1 = Some (r1, w1')
        /\ Acquire l2 w2 = Some (r2, w2')
        /\ ~ (got_lease r1 = true /\ got_lease r2 = true)
        /\ ~ (eval (IsPrimary l1) w1' = Some true
              /\ eval (IsPrimary l2) w2' = Some true
              /\ exists body, net w1 instanceIDURL = GetOk body)).
Proof.
  intros H1 H2 Hid. split.
  - intros Hsame [P1 P2]. unfold eval in P1, P2.
    rewrite (IsPrimary_run _ _ _ H1) in P1.
    rewrite (IsPrimary_run _ _ _ H2) in P2.
    simpl in P1, P2. injection P1 as P1. injection P2 as P2.
    apply String.eqb_eq in P1, P2. congruence.
  - intros Hnet.
    destruct (Acquire_returns _ _ _ H1) as (w1' & A1 & _).
    destruct (Acquire_returns _ _ _ H2) as (w2' & A2 & _).
    exists (outcome l1 v1 w1), (outcome l2 v2 w2), w1', w2'.
    split; [exact A1|]. split; [exact A2|]. split.
    + intros [G1 G2].
      apply got_lease_outcome in G1 as (b1 & N1 & D1).
      apply got_lease_outcome in G2 as (b2 & N2 & D2).
      congruence.
    + intros (P1 & P2 & body & Hb).
      rewrite (Acquire_reachable _ _ _ _ H1 Hb) in A1.
      rewrite Hnet in Hb.
      rewrite (Acquire_reachable _ _ _ _ H2 Hb) in A2.
      injection A1 as _ <-. injection A2 as _ <-.
      unfold eval in P1, P2.
      rewrite (IsPrimary_run _ _ _ (acquired_lookup _ _ _ body H1)) in P1.
      rewrite (IsPrimary_run _ _ _ (acquired_lookup _ _ _ body H2)) in P2.
      simpl in P1, P2. injection P1 as P1. injection P2 as P2.
      apply String.eqb_eq in P1, P2. congruence.
Qed.

Lemma at_most_one_primary_witness :
  let w := world_of [nodeA; nodeB] (GetOk (mkBody "node-a" None)) 100 in
  leasers w !! 0%nat = Some nodeA
  /\ leasers w !! 1%nat = Some nodeB
  /\ id nodeA <> id nodeB
  /\ (net w instanceIDURL = net w instanceIDURL ->
      exists r1 r2 w1' w2',
        Acquire 0 w = Some (r1, w1')
        /\ Acquire 1 w = Some (r2, w2')
        /\ ~ (got_lease r1 = true /\ got_lease r2 = true)
        /\ ~ (eval (IsPrimary 0) w1' = Some true
              /\ eval (IsPrimary 1) w2' = Some true
              /\ exists body, net w instanceIDURL = GetOk body)).
Proof.
  cbv zeta. split; [reflexivity|]. split; [reflexivity|].
  split; [discriminate|].
  apply (at_most_one_primary 0 1 nodeA nodeB); [reflexivity|reflexivity|].
  discriminate.
Defined.

(** ** The three outcomes of Acquire *)

(** Splits conjunctions and equivalences, opens the existentials among the
    hypotheses, and closes what is left by constructors and congruence. *)
Ltac settle :=
  repeat match goal with
         | |- _ /\ _ => split
         | |- _ <-> _ => split; intro
         | H : exists _, _ |- _ => destruct H
         | H : _ /\ _ |- _ => destruct H
         end;
  try discriminate; try congruence; eauto 6.

(** C2. [Acquire] always returns, with exactly one of three outcomes:
    [ErrNoPrimary] exactly when the request to the backend failed,
    [ErrPrimaryExists] exactly when the backend answered with an identity
    other than this Leaser's id, and a Lease with a nil error exactly when
    it answered with this Leaser's id. *)
Theorem Acquire_outcomes (l : ptr) (v : Leaser) (w : World) :
  leasers w !! l = Some v ->
  exists r w',
    Acquire l w = Some (r, w')
    /\ (r = (None, Some ErrNoPrimary) <->
        exists e, net w instanceIDURL = GetErr e)
    /\ (r = (None, Some ErrPrimaryExists) <->
        exists body, net w instanceIDURL = GetOk body /\ data body <> id v)
    /\ ((exists lease, r = (Some lease, None)) <->
        exists body, net w instanceIDURL = GetOk body /\ data body = id v)
    /\ (r = (None, Some ErrNoPrimary)
        \/ r = (None, Some ErrPrimaryExists)
        \/ r = (Some {| leaser := l; renewedAt := clock w |}, None)).
Proof.
  intros Hl.
  destruct (net w instanceIDURL) as [e|body] eqn:Hnet.
  - exists (None, Some ErrNoPrimary), (unreached w).
    split; [now apply Acquire_unreachable with e|]. settle.
  - eexists _, (acquired l v w body).
    split; [now apply Acquire_reachable|].
    destruct (String.eqb_spec (data body) (id v)) as [Heq|Hne]; settle.
Qed.

Lemma Acquire_outcomes_witness :
  let w := world_of [nodeA; nodeB] (GetOk (mkBody "node-a" None)) 100 in
  leasers w !! 1%nat = Some nodeB
  /\ exists r w',
      Acquire 1 w = Some (r, w')
      /\ (r = (None, Some ErrNoPrimary) <->
          exists e, net w instanceIDURL = GetErr e)
      /\ (r = (None, Some ErrPrimaryExists) <->
          exists body, net w instanceIDURL = GetOk body
                       /\ data body <> id nodeB)
      /\ ((exists lease, r = (Some lease, None)) <->
          exists body, net w instanceIDURL = GetOk body
                       /\ data body = id nodeB)
      /\ (r = (None, Some ErrNoPrimary)
          \/ r = (None, Some ErrPrimaryExists)
          \/ r = (Some {| leaser := 1%nat; renewedAt := clock w |}, None)).
Proof.
  cbv zeta. split; [reflexivity|].
  apply (Acquire_outcomes 1 nodeB). reflexivity.
Defined.

(** ** A failed attempt changes nothing *)

(** C5. When [Acquire] returns [ErrNoPrimary], the heap of Leasers, and so
    the [primaryID] of this Leaser and what [IsPrimary] and [PrimaryURL]
    return afterwards, are what they were before the call; and [Acquire]
    does return [ErrNoPrimary] whenever the request fails. *)
Theorem Acquire_NoPrimary_keeps_state (l : ptr) (w : World) :
  (forall e, net w instanceIDURL = GetErr e ->
             exists w', Acquire l w = Some ((None, Some ErrNoPrimary), w'))
  /\ forall r w',
      Acquire l w = Some (r, w') ->
      snd r = Some ErrNoPrimary ->
      leasers w' = leasers w
      /\ primaryID <$> leasers w' !! l = primaryID <$> leasers w !! l
      /\ eval (IsPrimary l) w' = eval (IsPrimary l) w
      /\ eval (PrimaryURL l) w' = eval (PrimaryURL l) w.
Proof.
  split.
  - intros e He. exists (unreached w). now apply Acquire_unreachable with e.
  - intros r w' Hrun Herr.
    assert (w' = unreached w) as ->.
    { destruct (net w instanceIDURL) as [e|body] eqn:Hnet.
      - rewrite (Acquire_unreachable l w e Hnet) in Hrun. congruence.
      - destruct (leasers w !! l) as [v|] eqn:Hl.
        + rewrite (Acquire_reachable l v w body Hl Hnet) in Hrun.
          injection Hrun as <- _.
          destruct (String.eqb (data body) (id v)); discriminate.
        + rewrite (Acquire_dangling l w body Hl Hnet) in Hrun. discriminate. }
    split; [reflexivity|]. split; [reflexivity|].
    assert (leasers (unreached w) !! l = leasers w !! l) as Hsame
      by reflexivity.
    destruct (leasers w !! l) as [v|] eqn:Hl.
    + unfold eval.
      rewrite (IsPrimary_run l v (unreached w) Hsame).
      rewrite (IsPrimary_run l v w Hl).
      rewrite (PrimaryURL_run l v (unreached w) Hsame).
      now rewrite (PrimaryURL_run l v w Hl).
    + unfold eval, IsPrimary, PrimaryURL, bind, load.
      now rewrite Hsame, Hl.
Qed.

Lemma Acquire_NoPrimary_keeps_state_witness :
  let w := world_of [nodeB; nodeA] (GetErr "connection refused") 100 in
  let w1 := world_of [observed nodeB (mkBody "node-a" None); nodeA]
                     (GetErr "connection refused") 100 in
  (exists w', Acquire 0 w = Some ((None, Some ErrNoPrimary), w'))
  /\ (Acquire 0 w1 = Some ((None, Some ErrNoPrimary), unreached w1)
      /\ snd (A := option Lease) (None, Some ErrNoPrimary) = Some ErrNoPrimary
      /\ eval (PrimaryURL 0) (unreached w1) = eval (PrimaryURL 0) w1
      /\ eval (PrimaryURL 0) w1 = Some ("http://primary:20202", None)).
Proof.
  cbv zeta. split.
  - apply (proj1 (Acquire_NoPrimary_keeps_state 0 _) "connection refused").
    reflexivity.
  - split; [reflexivity|]. split; [reflexivity|]. split; [|reflexivity].
    apply (proj2 (Acquire_NoPrimary_keeps_state 0 _)
             (None, Some ErrNoPrimary) _); reflexivity.
Defined.

(** ** Renewal and expiry *)

Lemma renew_then_read_run (lease : Lease) (w : World) :
  renew_then_read lease w = Some ((None, renewedAt lease), w).
Proof. reflexivity. Qed.

(** Whatever time passes before the renewal, [Renew] returns nil and
    [RenewedAt] still answers with the time of the acquisition. *)
Lemma acquire_wait_renew_run l v w body d :
  leasers w !! l = Some v ->
  net w instanceIDURL = GetOk body ->
  data body = id v ->
  eval (acquire_wait_renew l d) w = Some (Some (None, clock w, clock w + d)).
Proof.
  intros Hl Hnet Hid. unfold eval, acquire_wait_renew, bind.
  rewrite (Acquire_reachable l v w body Hl Hnet).
  apply String.eqb_eq in Hid. rewrite Hid. reflexivity.
Qed.

(** C3 (the code departs from the claim). When a node acquires the lease
    and renews it [d > 0] nanoseconds later, [Renew] returns nil, and
    [RenewedAt] read from the lease afterwards is still the time of the
    acquisition, strictly earlier than the time of the renewal. *)
Theorem Renew_keeps_acquisition_time (l : ptr) (v : Leaser) (w : World)
    (body : Body) (d : Duration) :
  leasers w !! l = Some v ->
  net w instanceIDURL = GetOk body ->
  data body = id v ->
  0 < d ->
  exists readBack renewal,
    eval (acquire_wait_renew l d) w = Some (Some (None, readBack, renewal))
    /\ readBack = clock w
    /\ renewal = clock w + d
    /\ readBack < renewal.
Proof.
  intros Hl Hnet Hid Hd. exists (clock w), (clock w + d).
  split; [now apply acquire_wait_renew_run with v body|].
  split; [reflexivity|]. split; [reflexivity|]. lia.
Qed.

Lemma Renew_keeps_acquisition_time_witness :
  let w := world_of [nodeA] (GetOk (mkBody "node-a" None)) 100 in
  leasers w !! 0%nat = Some nodeA
  /\ 0 < 50
  /\ eval (acquire_wait_renew 0 50) w = Some (Some (None, 100, 150)).
Proof.
  cbv zeta. split; [reflexivity|]. split; [reflexivity|].
  destruct (Renew_keeps_acquisition_time 0%nat nodeA
              (world_of [nodeA] (GetOk (mkBody "node-a" None)) 100)
              (mkBody "node-a" None) 50 eq_refl eq_refl eq_refl eq_refl)
    as (readBack & renewal & Hrun & -> & -> & _).
  exact Hrun.
Defined.

(** C4. The TTL of every Lease is [math.MaxInt64] nanoseconds, the largest
    duration there is, so the lease is valid at every time less than
    2^63 - 1 nanoseconds after [renewedAt], renewed or not. *)
Theorem TTL_is_unbounded (lease : Lease) :
  TTL lease = MaxInt64
  /\ MaxInt64 = 2 ^ 63 - 1
  /\ (forall d, int64_range d -> d <= TTL lease)
  /\ (forall now, now - RenewedAt lease < MaxInt64 ->
                  valid_at lease now = true).
Proof.
  split; [reflexivity|]. split; [reflexivity|]. split.
  - unfold int64_range, TTL. lia.
  - intros now Hnow. unfold valid_at, expiry, TTL. apply Z.ltb_lt. lia.
Qed.

Lemma TTL_is_unbounded_witness :
  let lease := {| leaser := 0%nat; renewedAt := 100 |} in
  int64_range 3600000000000
  /\ 3600000000100 - RenewedAt lease < MaxInt64
  /\ 3600000000000 <= TTL lease
  /\ valid_at lease 3600000000100 = true.
Proof.
  cbv zeta.
  assert (int64_range 3600000000000) as Hd by (unfold int64_range; split; discriminate).
  assert (3600000000100 - 100 < MaxInt64) as Hn by reflexivity.
  split; [exact Hd|]. split; [exact Hn|].
  pose proof (TTL_is_unbounded {| leaser := 0%nat; renewedAt := 100 |})
    as (_ & _ & Hmax & Hvalid).
  split; [exact (Hmax _ Hd) | exact (Hvalid _ Hn)].
Defined.

(** ** The address of the primary *)

Lemma NewLeaser_run (url ident : string) (w : World) :
  exists w',
    NewLeaser url ident w = Some (length (leasers w), w')
    /\ leasers w' !! length (leasers w)
       = Some {| primaryURL := url; id := ident; primaryID := "" |}.
Proof.
  eexists. split; [reflexivity|]. cbn [leasers].
  now apply list_lookup_middle.
Qed.

(** C6 as stated fails: a Leaser whose backend answers with an empty body
    gets [ErrPrimaryExists] from [Acquire], and [PrimaryURL] then returns
    the empty string, not the configured URL. *)
Lemma PrimaryURL_after_empty_answer :
  ~ (forall (l : ptr) v w body r w',
        leasers w !! l = Some v ->
        net w instanceIDURL = GetOk body ->
        Acquire l w = Some (r, w') ->
        eval (PrimaryURL l) w' = Some (primaryURL v, None)).
Proof.
  intros H.
  specialize (H 0%nat nodeA (world_of [nodeA] (GetOk (mkBody "" None)) 100)
                (mkBody "" None) (None, Some ErrPrimaryExists) _
                eq_refl eq_refl eq_refl).
  discriminate H.
Qed.

(** C6, amended. After an [Acquire] that reached the backend, whether it
    returned a Lease or [ErrPrimaryExists], [PrimaryURL] returns the
    configured URL with a nil error when the identity read was not empty,
    and the empty string with a nil error when it was empty; on a Leaser
    fresh from [NewLeaser] it returns the empty string with a nil error. *)
Theorem PrimaryURL_after_Acquire :
  (forall (l : ptr) v w body,
      leasers w !! l = Some v ->
      net w instanceIDURL = GetOk body ->
      exists r w',
        Acquire l w = Some (r, w')
        /\ (got_lease r = true \/ r = (None, Some ErrPrimaryExists))
        /\ eval (PrimaryURL l) w'
           = Some (if String.eqb (data body) "" then "" else primaryURL v,
                   None))
  /\ (forall url ident w,
         exists l w',
           NewLeaser url ident w = Some (l, w')
           /\ eval (PrimaryURL l) w' = Some ("", None)).
Proof.
  split.
  - intros l v w body Hl Hnet. eexists _, (acquired l v w body).
    split; [now apply Acquire_reachable|]. split.
    + destruct (String.eqb (data body) (id v)); auto.
    + unfold eval.
      now rewrite (PrimaryURL_run _ _ _ (acquired_lookup l v w body Hl)).
  - intros url ident w.
    destruct (NewLeaser_run url ident w) as (w' & Hnew & Hl).
    exists (length (leasers w)), w'. split; [exact Hnew|].
    unfold eval. now rewrite (PrimaryURL_run _ _ _ Hl).
Qed.

Lemma PrimaryURL_after_Acquire_witness :
  let w := world_of [nodeB] (GetOk (mkBody "node-a" None)) 100 in
  leasers w !! 0%nat = Some nodeB
  /\ net w instanceIDURL = GetOk (mkBody "node-a" None)
  /\ exists r w',
      Acquire 0 w = Some (r, w')
      /\ (got_lease r = true \/ r = (None, Some ErrPrimaryExists))
      /\ eval (PrimaryURL 0) w' = Some ("http://primary:20202", None).
Proof.
  cbv zeta. split; [reflexivity|]. split; [reflexivity|].
  exact (proj1 PrimaryURL_after_Acquire 0%nat nodeB
               (world_of [nodeB] (GetOk (mkBody "node-a" None)) 100)
               (mkBody "node-a" None) eq_refl eq_refl).
Defined.

(** ** The address Acquire polls *)

Lemma retarget_run (l : ptr) (v : Leaser) (w : World) (u : string) :
  leasers w !! l = Some v ->
  leasers (retarget l u w) !! l = Some (with_primaryURL u v)
  /\ net (retarget l u w) = net w
  /\ clock (retarget l u w) = clock w
  /\ requests (retarget l u w) = requests w.
Proof.
  intros Hl. unfold retarget. rewrite Hl. cbn [leasers net clock requests].
  split; [|auto]. apply list_lookup_insert_eq. now apply lookup_lt_Some with v.
Qed.

(** C9. Whatever primary URL the Leaser was configured with, [Acquire]
    makes one request, to [http://localhost:20101/instance/id], returns the
    same result and records the same primary identity; the configured URL
    shows only in what [PrimaryURL] returns afterwards. *)
Theorem Acquire_ignores_primaryURL (l : ptr) (v : Leaser) (w : World)
    (u : string) :
  leasers w !! l = Some v ->
  instanceIDURL = "http://localhost:20101/instance/id"
  /\ exists r w' wu',
      Acquire l w = Some (r, w')
      /\ Acquire l (retarget l u w) = Some (r, wu')
      /\ requests w' = (requests w ++ [instanceIDURL])%list
      /\ requests wu' = (requests w ++ [instanceIDURL])%list
      /\ primaryID <$> leasers wu' !! l = primaryID <$> leasers w' !! l
      /\ (forall body,
             net w instanceIDURL = GetOk body ->
             data body <> "" ->
             eval (PrimaryURL l) w' = Some (primaryURL v, None)
             /\ eval (PrimaryURL l) wu' = Some (u, None)).
Proof.
  intros Hl. split; [reflexivity|].
  destruct (retarget_run l v w u Hl) as (Hlu & Hnetu & Hclocku & Hrequ).
  destruct (net w instanceIDURL) as [e|body] eqn:Hnet.
  - exists (None, Some ErrNoPrimary), (unreached w), (unreached (retarget l u w)).
    split; [now apply Acquire_unreachable with e|].
    split; [apply Acquire_unreachable with e; now rewrite Hnetu|].
    cbn [unreached requests leasers]. rewrite Hrequ, Hlu, Hl.
    do 3 (split; [reflexivity|]). discriminate.
  - eexists _, (acquired l v w body),
      (acquired l (with_primaryURL u v) (retarget l u w) body).
    split; [now apply Acquire_reachable|].
    split.
    { rewrite (Acquire_reachable l (with_primaryURL u v) (retarget l u w) body
                 Hlu); [|now rewrite Hnetu].
      now rewrite Hclocku. }
    rewrite (acquired_lookup l v w body Hl).
    rewrite (acquired_lookup l _ _ body Hlu).
    cbn [acquired requests]. rewrite Hrequ.
    do 3 (split; [reflexivity|]).
    intros body' Hb Hd. injection Hb as <-. unfold eval.
    rewrite (PrimaryURL_run _ _ _ (acquired_lookup l v w body Hl)).
    rewrite (PrimaryURL_run _ _ _ (acquired_lookup l _ _ body Hlu)).
    cbn [observed with_primaryURL primaryID primaryURL].
    destruct (String.eqb_spec (data body) ""); [contradiction|].
    split; reflexivity.
Qed.

Lemma Acquire_ignores_primaryURL_witness :
  let w := world_of [nodeA] (GetOk (mkBody "node-a" None)) 100 in
  leasers w !! 0%nat = Some nodeA
  /\ exists r w' wu',
      Acquire 0 w = Some (r, w')
      /\ Acquire 0 (retarget 0 "http://elsewhere:1" w) = Some (r, wu')
      /\ requests w' = (requests w ++ [instanceIDURL])%list
      /\ requests wu' = (requests w ++ [instanceIDURL])%list
      /\ primaryID <$> leasers wu' !! 0%nat = primaryID <$> leasers w' !! 0%nat
      /\ (forall body,
             net w instanceIDURL = GetOk body ->
             data body <> "" ->
             eval (PrimaryURL 0) w' = Some (primaryURL nodeA, None)
             /\ eval (PrimaryURL 0) wu' = Some ("http://elsewhere:1", None)).
Proof.
  cbv zeta. split; [reflexivity|].
  exact (proj2 (Acquire_ignores_primaryURL 0%nat nodeA
                  (world_of [nodeA] (GetOk (mkBody "node-a" None)) 100)
                  "http://elsewhere:1" eq_refl)).
Defined.

(** ** A failed read of the body *)

(** C10 as stated fails: when the read of the body fails after the bytes of
    this Leaser's own, nonempty id have arrived, [Acquire] returns a Lease,
    not [ErrPrimaryExists]. *)
Lemma read_error_after_own_id :
  ~ (forall (l : ptr) v w d e r w',
        leasers w !! l = Some v ->
        id v <> "" ->
        net w instanceIDURL = GetOk (mkBody d (Some e)) ->
        Acquire l w = Some (r, w') ->
        r = (None, Some ErrPrimaryExists)).
Proof.
  intros H.
  assert (id nodeA <> "") as Hid by discriminate.
  specialize (H 0%nat nodeA
                (world_of [nodeA]
                   (GetOk (mkBody "node-a" (Some "unexpected EOF"))) 100)
                "node-a" "unexpected EOF"
                (Some {| leaser := 0%nat; renewedAt := 100 |}, None) _
                eq_refl Hid eq_refl eq_refl).
  discriminate H.
Qed.

(** C10, amended. When the request succeeds and the read of the body stops
    with an error, [Acquire] never reports it: it takes the bytes read so
    far as the primary identity and returns what it would have returned had
    the read ended cleanly after those bytes: [ErrPrimaryExists] when they
    differ from its id (so always when nothing was read and its id is not
    empty), and a Lease when they are its id. *)
Theorem Acquire_ignores_read_error (l : ptr) (v : Leaser) (w : World)
    (d e : string) :
  leasers w !! l = Some v ->
  net w instanceIDURL = GetOk (mkBody d (Some e)) ->
  exists r w',
    Acquire l w = Some (r, w')
    /\ primaryID <$> leasers w' !! l = Some d
    /\ snd r <> Some ErrNoPrimary
    /\ (d <> id v -> r = (None, Some ErrPrimaryExists))
    /\ (d = "" -> id v <> "" -> r = (None, Some ErrPrimaryExists))
    /\ (d = id v ->
        r = (Some {| leaser := l; renewedAt := clock w |}, None))
    /\ (forall w0, leasers w0 = leasers w -> clock w0 = clock w ->
                   net w0 instanceIDURL = GetOk (mkBody d None) ->
                   eval (Acquire l) w0 = Some r).
Proof.
  intros Hl Hnet. eexists _, (acquired l v w (mkBody d (Some e))).
  split; [now apply Acquire_reachable|].
  rewrite (acquired_lookup l v w _ Hl). cbn [data].
  split; [reflexivity|].
  destruct (String.eqb_spec d (id v)) as [Heq|Hne].
  - cbn [snd]. do 4 (split; [congruence|]).
    intros w0 Hh Hc Hn. unfold eval.
    rewrite (Acquire_reachable l v w0 (mkBody d None)); [|congruence|exact Hn].
    cbn [data]. apply String.eqb_eq in Heq. rewrite Heq, Hc. reflexivity.
  - cbn [snd]. do 4 (split; [congruence|]).
    intros w0 Hh Hc Hn. unfold eval.
    rewrite (Acquire_reachable l v w0 (mkBody d None)); [|congruence|exact Hn].
    cbn [data]. apply String.eqb_neq in Hne. rewrite Hne. reflexivity.
Qed.

Lemma Acquire_ignores_read_error_witness :
  let w := world_of [nodeA] (GetOk (mkBody "" (Some "connection reset"))) 100 in
  leasers w !! 0%nat = Some nodeA
  /\ net w instanceIDURL = GetOk (mkBody "" (Some "connection reset"))
  /\ exists r w',
      Acquire 0 w = Some (r, w')
      /\ primaryID <$> leasers w' !! 0%nat = Some ""
      /\ snd r <> Some ErrNoPrimary
      /\ ("" <> id nodeA -> r = (None, Some ErrPrimaryExists))
      /\ ("" = "" -> id nodeA <> "" -> r = (None, Some ErrPrimaryExists))
      /\ ("" = id nodeA ->
          r = (Some {| leaser := 0%nat; renewedAt := clock w |}, None))
      /\ (forall w0, leasers w0 = leasers w -> clock w0 = clock w ->
                     net w0 instanceIDURL = GetOk (mkBody "" None) ->
                     eval (Acquire 0) w0 = Some r).
Proof.
  cbv zeta. split; [reflexivity|]. split; [reflexivity|].
  exact (Acquire_ignores_read_error 0%nat nodeA
           (world_of [nodeA] (GetOk (mkBody "" (Some "connection reset"))) 100)
           "" "connection reset" eq_refl eq_refl).
Defined.

(** ** Writes on a node that is not Primary *)

Lemma adapter_write_not_primary (c : store.WriteCall) (s : store.Store) :
  store.isPrimary s = false ->
  store.adapter_write c s = (s, Some syscall.EACCES).
Proof.
  intros Hrole. unfold store.adapter_write, store.write. now rewrite Hrole.
Qed.

Lemma observe_put (r : store.Role) (dbID : Z) (d : store.Database)
    (dbs : list (Z * store.Database)) :
  store.observe dbID (store.mkStore r (store.put_db dbID d dbs)) = d.
Proof.
  unfold store.observe. cbn [store.databases].
  induction dbs as [|[k d0] rest IH]; cbn [store.put_db store.get_db].
  - now rewrite Z.eqb_refl.
  - destruct (Z.eqb_spec k dbID) as [->|Hne]; cbn [store.get_db].
    + now rewrite Z.eqb_refl.
    + apply Z.eqb_neq in Hne. now rewrite Hne.
Qed.

(** On the Primary the same calls go through: a page written between
    [beginWrite] and [commit] is the latest of the database afterwards, and
    the TXID has advanced by one. *)
Lemma primary_commit_advances (s : store.Store) (dbID pageNo : Z)
    (bytes : string) :
  store.isPrimary s = true ->
  exists s',
    store.adapter_writes
      [store.beginWrite dbID; store.writePage dbID pageNo bytes;
       store.commit dbID] s
    = (s', [None; None; None])
    /\ store.TXID (store.observe dbID s')
       = store.TXID (store.observe dbID s) + 1
    /\ head (store.pages (store.observe dbID s')) = Some (pageNo, bytes).
Proof.
  intros Hrole. destruct s as [r dbs]. destruct r; try discriminate.
  eexists. split.
  - cbn [store.adapter_writes store.adapter_write store.write store.isPrimary
           store.role store.apply_write store.databases].
    reflexivity.
  - repeat (rewrite observe_put; cbn [store.TXID store.pages store.dirty]).
    split; reflexivity.
Qed.



(** ** The configuration loader *)

Import main_test yaml config.

Example ParseDuration_10s : ParseDuration "10s" = Some (10 * Second).
Proof. reflexivity. Qed.

Example ParseDuration_1h30m : ParseDuration "1h30m" = Some (5400 * Second).
Proof. reflexivity. Qed.

Example ParseDuration_no_unit : ParseDuration "10" = None.
Proof. reflexivity. Qed.



(** * Further properties of package fixedprimary *)

(** ** What Acquire leaves alone *)

Lemma Acquire_cases (l : ptr) (w : World) r w' :
  Acquire l w = Some (r, w') ->
  (exists e, net w instanceIDURL = GetErr e
             /\ r = (None, Some ErrNoPrimary) /\ w' = unreached w)
  \/ (exists v body,
         leasers w !! l = Some v
         /\ net w instanceIDURL = GetOk body
         /\ r = (if String.eqb (data body) (id v)
                 then (Some {| leaser := l; renewedAt := clock w |}, None)
                 else (None, Some ErrPrimaryExists))
         /\ w' = acquired l v w body).
Proof.
  intros Hrun. destruct (net w instanceIDURL) as [e|body] eqn:Hnet.
  - left. exists e. rewrite (Acquire_unreachable l w e Hnet) in Hrun.
    injection Hrun as <- <-. auto.
  - right. destruct (leasers w !! l) as [v|] eqn:Hl.
    + exists v, body. rewrite (Acquire_reachable l v w body Hl Hnet) in Hrun.
      injection Hrun as <- <-. auto.
    + rewrite (Acquire_dangling l w body Hl Hnet) in Hrun. discriminate.
Qed.

Lemma Acquire_keeps_others (l : ptr) (w : World) r w' :
  Acquire l w = Some (r, w') ->
  forall l' : ptr, l' <> l -> leasers w' !! l' = leasers w !! l'.
Proof.
  intros Hrun l' Hne.
  destruct (Acquire_cases l w r w' Hrun)
    as [(e & _ & _ & ->) | (v & body & _ & _ & _ & ->)].
  - reflexivity.
  - apply acquired_lookup_ne. congruence.
Qed.

(** X1. Whatever it returns, [Acquire] keeps the id and the configured
    primary URL of its Leaser, allocates and frees nothing, and changes no
    other Leaser. *)
Theorem Acquire_frame (l : ptr) (v : Leaser) (w : World) r w' :
  leasers w !! l = Some v ->
  Acquire l w = Some (r, w') ->
  (exists v', leasers w' !! l = Some v'
              /\ id v' = id v /\ primaryURL v' = primaryURL v)
  /\ length (leasers w') = length (leasers w)
  /\ (forall l' : ptr, l' <> l -> leasers w' !! l' = leasers w !! l').
Proof.
  intros Hl Hrun.
  split; [|split; [|now apply Acquire_keeps_others with r]].
  - destruct (Acquire_cases l w r w' Hrun)
      as [(e & _ & _ & ->) | (v0 & body & Hl0 & _ & _ & ->)].
    + exists v. auto.
    + assert (v0 = v) as -> by congruence.
      exists (observed v body).
      split; [now apply acquired_lookup | split; reflexivity].
  - destruct (Acquire_cases l w r w' Hrun)
      as [(e & _ & _ & ->) | (v0 & body & _ & _ & _ & ->)].
    + reflexivity.
    + cbn [acquired leasers]. apply length_insert.
Qed.

Lemma Acquire_frame_witness :
  let w := world_of [nodeA; nodeB] (GetOk (mkBody "node-b" None)) 100 in
  leasers w !! 0%nat = Some nodeA
  /\ Acquire 0 w = Some ((None, Some ErrPrimaryExists), acquired 0 nodeA w (mkBody "node-b" None))
  /\ leasers (acquired 0 nodeA w (mkBody "node-b" None)) !! 1%nat = Some nodeB.
Proof.
  cbv zeta. split; [reflexivity|]. split; [reflexivity|].
  pose proof (Acquire_frame 0%nat nodeA
                (world_of [nodeA; nodeB] (GetOk (mkBody "node-b" None)) 100)
                (None, Some ErrPrimaryExists)
                (acquired 0 nodeA
                   (world_of [nodeA; nodeB] (GetOk (mkBody "node-b" None)) 100)
                   (mkBody "node-b" None))
                eq_refl eq_refl) as (_ & _ & Hother).
  rewrite (Hother 1%nat); [reflexivity | discriminate].
Defined.

(** ** What Acquire records *)

(** X2. When the backend answers, [IsPrimary] afterwards is true exactly
    when the identity read is this Leaser's id, whatever the Leaser held
    before: a Leaser that was primary is demoted by another identity and one
    that was not is promoted by its own.  [Acquire] returns a Lease exactly
    when [IsPrimary] is then true, and [ErrPrimaryExists] exactly when it
    is false. *)
Theorem Acquire_sets_IsPrimary (l : ptr) (v : Leaser) (w : World)
    (body : Body) :
  leasers w !! l = Some v ->
  net w instanceIDURL = GetOk body ->
  exists r w' p,
    Acquire l w = Some (r, w')
    /\ eval (IsPrimary l) w' = Some p
    /\ (p = true <-> data body = id v)
    /\ (got_lease r = true <-> p = true)
    /\ (r = (None, Some ErrPrimaryExists) <-> p = false).
Proof.
  intros Hl Hnet.
  exists (if String.eqb (data body) (id v)
          then (Some {| leaser := l; renewedAt := clock w |}, None)
          else (None, Some ErrPrimaryExists)),
    (acquired l v w body), (String.eqb (data body) (id v)).
  split; [now apply Acquire_reachable|].
  split.
  { unfold eval.
    now rewrite (IsPrimary_run _ _ _ (acquired_lookup l v w body Hl)). }
  destruct (String.eqb_spec (data body) (id v)); cbn [got_lease];
    repeat split; intros; congruence.
Qed.

Lemma Acquire_sets_IsPrimary_witness :
  let was_primary :=
    {| primaryURL := "http://primary:20202"; id := "node-a";
       primaryID := "node-a" |} in
  let w := world_of [was_primary] (GetOk (mkBody "node-b" None)) 100 in
  leasers w !! 0%nat = Some was_primary
  /\ eval (IsPrimary 0) w = Some true
  /\ exists r w' p,
      Acquire 0 w = Some (r, w')
      /\ eval (IsPrimary 0) w' = Some p
      /\ (p = true <-> "node-b" = "node-a")
      /\ (got_lease r = true <-> p = true)
      /\ (r = (None, Some ErrPrimaryExists) <-> p = false).
Proof.
  cbv zeta. split; [reflexivity|]. split; [reflexivity|].
  exact (Acquire_sets_IsPrimary 0%nat _
           (world_of [ {| primaryURL := "http://primary:20202"; id := "node-a";
                          primaryID := "node-a" |} ]
                     (GetOk (mkBody "node-b" None)) 100)
           (mkBody "node-b" None) eq_refl eq_refl).
Defined.

(** X3. When the backend gives the same answer again, a later [Acquire],
    whatever time has passed and whatever was requested or printed in
    between, returns the same error, or again a Lease of the same Leaser,
    and leaves the Leasers as the first call left them: polling again
    changes nothing. *)
Theorem Acquire_idempotent (l : ptr) (w w1 later : World) r :
  Acquire l w = Some (r, w1) ->
  leasers later = leasers w1 ->
  net later instanceIDURL = net w instanceIDURL ->
  exists r2 w2,
    Acquire l later = Some (r2, w2)
    /\ snd r2 = snd r
    /\ got_lease r2 = got_lease r
    /\ leaser <$> fst r2 = leaser <$> fst r
    /\ leasers w2 = leasers w1.
Proof.
  intros Hrun Hheap Hsame.
  destruct (Acquire_cases l w r w1 Hrun)
    as [(e & Hnet & -> & ->) | (v & body & Hl & Hnet & -> & ->)].
  - rewrite Hnet in Hsame.
    exists (None, Some ErrNoPrimary), (unreached later).
    split; [now apply Acquire_unreachable with e|].
    do 3 (split; [reflexivity|]). exact Hheap.
  - rewrite Hnet in Hsame.
    assert (leasers later !! l = Some (observed v body)) as Hl2.
    { rewrite Hheap. now apply acquired_lookup. }
    eexists _, (acquired l (observed v body) later body).
    split; [exact (Acquire_reachable l _ later body Hl2 Hsame)|].
    cbn [observed id].
    split; [now destruct (String.eqb (data body) (id v))|].
    split; [now destruct (String.eqb (data body) (id v))|].
    split; [now destruct (String.eqb (data body) (id v))|].
    cbn [acquired leasers]. rewrite Hheap. cbn [acquired leasers].
    apply list_insert_insert_eq.
Qed.

Lemma Acquire_idempotent_witness :
  let w := world_of [nodeA] (GetOk (mkBody "node-a" None)) 100 in
  let w1 := acquired 0 nodeA w (mkBody "node-a" None) in
  let later :=
    mkWorld (leasers w1) (net w) 49110
            (requests w1 ++ ["http://localhost:20101/other"])
            (logged w1 ++ ["a line"]) in
  Acquire 0 w = Some ((Some {| leaser := 0%nat; renewedAt := 100 |}, None), w1)
  /\ exists r2 w2,
      Acquire 0 later = Some (r2, w2)
      /\ snd r2 = None
      /\ got_lease r2 = true
      /\ leaser <$> fst r2 = Some 0%nat
      /\ leasers w2 = leasers w1.
Proof.
  cbv zeta. split; [reflexivity|].
  exact (Acquire_idempotent 0%nat
           (world_of [nodeA] (GetOk (mkBody "node-a" None)) 100)
           (acquired 0 nodeA
              (world_of [nodeA] (GetOk (mkBody "node-a" None)) 100)
              (mkBody "node-a" None))
           (mkWorld
              (leasers (acquired 0 nodeA
                          (world_of [nodeA] (GetOk (mkBody "node-a" None)) 100)
                          (mkBody "node-a" None)))
              (net (world_of [nodeA] (GetOk (mkBody "node-a" None)) 100))
              49110
              (requests (acquired 0 nodeA
                           (world_of [nodeA] (GetOk (mkBody "node-a" None)) 100)
                           (mkBody "node-a" None))
               ++ ["http://localhost:20101/other"])
              (logged (acquired 0 nodeA
                         (world_of [nodeA] (GetOk (mkBody "node-a" None)) 100)
                         (mkBody "node-a" None))
               ++ ["a line"]))
           (Some {| leaser := 0%nat; renewedAt := 100 |}, None)
           eq_refl eq_refl eq_refl).
Defined.

(** X4. [Acquire] prints its one log line exactly when it returns
    [ErrNoPrimary]; when the backend answered, whatever it answered, nothing
    is printed. *)
Theorem Acquire_logs_only_failure (l : ptr) (w : World) r w' :
  Acquire l w = Some (r, w') ->
  (r = (None, Some ErrNoPrimary) ->
   logged w' = (logged w ++ ["Failed to reach primary for instance id"])%list)
  /\ (r <> (None, Some ErrNoPrimary) -> logged w' = logged w).
Proof.
  intros Hrun.
  destruct (Acquire_cases l w r w' Hrun)
    as [(e & _ & -> & ->) | (v & body & _ & _ & -> & ->)].
  - split; [reflexivity | congruence].
  - split; [|reflexivity].
    destruct (String.eqb (data body) (id v)); discriminate.
Qed.

Lemma Acquire_logs_only_failure_witness :
  let w := world_of [nodeA] (GetErr "connection refused") 100 in
  Acquire 0 w = Some ((None, Some ErrNoPrimary), unreached w)
  /\ logged (unreached w) = ["Failed to reach primary for instance id"].
Proof.
  cbv zeta. split; [reflexivity|].
  exact (proj1 (Acquire_logs_only_failure 0%nat
                  (world_of [nodeA] (GetErr "connection refused") 100)
                  (None, Some ErrNoPrimary) _ eq_refl) eq_refl).
Defined.

(** ** The nil receiver *)

(** X5. On an address that holds no Leaser (a nil [*Leaser]), [IsPrimary]
    and [PrimaryURL] panic; [Acquire] panics when the backend answers, and
    returns [ErrNoPrimary] without touching the receiver when the request
    fails. *)
Theorem nil_receiver (l : ptr) (w : World) :
  leasers w !! l = None ->
  IsPrimary l w = None
  /\ PrimaryURL l w = None
  /\ (forall body, net w instanceIDURL = GetOk body -> Acquire l w = None)
  /\ (forall e, net w instanceIDURL = GetErr e ->
                Acquire l w = Some ((None, Some ErrNoPrimary), unreached w)).
Proof.
  intros Hl. unfold IsPrimary, PrimaryURL, bind, load. rewrite Hl.
  split; [reflexivity|]. split; [reflexivity|]. split.
  - intros body Hnet. now apply Acquire_dangling with body.
  - intros e Hnet. now apply Acquire_unreachable with e.
Qed.

Lemma nil_receiver_witness :
  let w := world_of [] (GetErr "connection refused") 100 in
  leasers w !! 0%nat = None
  /\ IsPrimary 0 w = None
  /\ Acquire 0 w = Some ((None, Some ErrNoPrimary), unreached w).
Proof.
  cbv zeta. split; [reflexivity|].
  pose proof (nil_receiver 0%nat
                (world_of [] (GetErr "connection refused") 100) eq_refl)
    as (Hp & _ & _ & Herr).
  split; [exact Hp|]. exact (Herr "connection refused" eq_refl).
Defined.

(** ** Construction *)

(** X6. [NewLeaser] returns an address that held no Leaser, and every
    Leaser there was stays where and as it was; so two Leasers constructed
    one after the other are two objects, and an [Acquire] through the first
    leaves the second as constructed. *)
Theorem NewLeaser_fresh (url1 id1 url2 id2 : string) (w : World) :
  exists l1 w1 l2 w2,
    NewLeaser url1 id1 w = Some (l1, w1)
    /\ NewLeaser url2 id2 w1 = Some (l2, w2)
    /\ leasers w !! l1 = None
    /\ l1 <> l2
    /\ (forall (l : ptr) v, leasers w !! l = Some v -> leasers w2 !! l = Some v)
    /\ forall r w3,
        Acquire l1 w2 = Some (r, w3) ->
        leasers w3 !! l2
        = Some {| primaryURL := url2; id := id2; primaryID := "" |}.
Proof.
  destruct (NewLeaser_run url1 id1 w) as (w1 & Hn1 & Hl1).
  destruct (NewLeaser_run url2 id2 w1) as (w2 & Hn2 & Hl2).
  assert (leasers w1 = (leasers w ++ [mkLeaser url1 id1 ""])%list) as Hw1.
  { unfold NewLeaser, alloc in Hn1. injection Hn1 as <-. reflexivity. }
  assert (leasers w2 = (leasers w1 ++ [mkLeaser url2 id2 ""])%list) as Hw2.
  { unfold NewLeaser, alloc in Hn2. injection Hn2 as <-. reflexivity. }
  assert (length (leasers w1) = S (length (leasers w))) as Hlen.
  { rewrite Hw1, length_app. cbn [length]. lia. }
  assert (leasers w2 !! length (leasers w) = Some (mkLeaser url1 id1 "")) as Hl12.
  { rewrite Hw2. rewrite lookup_app_l by (rewrite Hlen; lia). exact Hl1. }
  exists (length (leasers w)), w1, (length (leasers w1)), w2.
  split; [exact Hn1|]. split; [exact Hn2|].
  split; [now apply lookup_ge_None|].
  split; [rewrite Hlen; lia|].
  split.
  - intros l v Hl. rewrite Hw2, Hw1.
    pose proof (lookup_lt_Some _ _ _ Hl) as Hlt.
    rewrite lookup_app_l by (rewrite length_app; lia).
    now rewrite lookup_app_l.
  - intros r w3 Hrun.
    rewrite (Acquire_keeps_others _ _ _ _ Hrun) by (rewrite Hlen; lia).
    exact Hl2.
Qed.

(** X7. A Leaser fresh from [NewLeaser] reports [IsPrimary] exactly when it
    was given the empty id: the empty id equals the empty [primaryID] it
    starts with, before anything was asked of the backend. *)
Theorem NewLeaser_IsPrimary (url ident : string) (w : World) :
  exists l w',
    NewLeaser url ident w = Some (l, w')
    /\ eval (IsPrimary l) w' = Some (String.eqb "" ident)
    /\ (eval (IsPrimary l) w' = Some true <-> ident = "").
Proof.
  destruct (NewLeaser_run url ident w) as (w' & Hnew & Hl).
  exists (length (leasers w)), w'. split; [exact Hnew|].
  unfold eval. rewrite (IsPrimary_run _ _ _ Hl). cbn [primaryID id fmap option_fmap option_map fst].
  split; [reflexivity|].
  destruct (String.eqb_spec "" ident) as [<-|Hne]; split; intros H;
    congruence.
Qed.

(** ** Holding a lease *)

(** X8. Once [Acquire] has returned a Lease, whatever the backend answers
    from then on, and whether it answers at all, [Renew] and [Close] on the
    Lease and [Close] on the Leaser return nil without a request, and
    [IsPrimary] stays true: only another [Acquire] can tell the holder that
    the primary changed, and it does so as soon as the backend names another
    identity. *)
Theorem lease_outlives_backend (l : ptr) (v : Leaser) (w : World)
    (body : Body) (later : string -> GetResult) :
  leasers w !! l = Some v ->
  net w instanceIDURL = GetOk body ->
  data body = id v ->
  exists lease w1,
    Acquire l w = Some ((Some lease, None), w1)
    /\ let w2 := with_net later w1 in
       Renew lease w2 = Some (None, w2)
       /\ Lease_Close lease w2 = Some (None, w2)
       /\ Leaser_Close l w2 = Some (None, w2)
       /\ eval (IsPrimary l) w2 = Some true
       /\ (forall e, later instanceIDURL = GetErr e ->
             exists w3, Acquire l w2 = Some ((None, Some ErrNoPrimary), w3)
                        /\ eval (IsPrimary l) w3 = Some true)
       /\ (forall body', later instanceIDURL = GetOk body' ->
             data body' <> id v ->
             exists w3, Acquire l w2 = Some ((None, Some ErrPrimaryExists), w3)
                        /\ eval (IsPrimary l) w3 = Some false).
Proof.
  intros Hl Hnet Hid.
  exists {| leaser := l; renewedAt := clock w |}, (acquired l v w body).
  split.
  { rewrite (Acquire_reachable l v w body Hl Hnet).
    apply String.eqb_eq in Hid. now rewrite Hid. }
  cbv zeta.
  set (w2 := with_net later (acquired l v w body)).
  assert (leasers w2 !! l = Some (observed v body)) as Hl2
    by (exact (acquired_lookup l v w body Hl)).
  assert (eval (IsPrimary l) w2 = Some true) as Hp.
  { unfold eval. rewrite (IsPrimary_run _ _ _ Hl2).
    cbn [observed primaryID id]. apply String.eqb_eq in Hid. now rewrite Hid. }
  do 3 (split; [reflexivity|]). split; [exact Hp|]. split.
  - intros e He. exists (unreached w2).
    split; [now apply Acquire_unreachable with e|].
    unfold eval. rewrite (IsPrimary_run l (observed v body) (unreached w2) Hl2).
    cbn [observed primaryID id]. apply String.eqb_eq in Hid. now rewrite Hid.
  - intros body' Hb Hne. exists (acquired l (observed v body) w2 body').
    split.
    + rewrite (Acquire_reachable l (observed v body) w2 body' Hl2 Hb).
      cbn [observed id]. apply String.eqb_neq in Hne. now rewrite Hne.
    + unfold eval.
      rewrite (IsPrimary_run _ _ _ (acquired_lookup l _ w2 body' Hl2)).
      cbn [observed primaryID id]. apply String.eqb_neq in Hne.
      now rewrite Hne.
Qed.

Lemma lease_outlives_backend_witness :
  let w := world_of [nodeA] (GetOk (mkBody "node-a" None)) 100 in
  leasers w !! 0%nat = Some nodeA
  /\ net w instanceIDURL = GetOk (mkBody "node-a" None)
  /\ data (mkBody "node-a" None) = id nodeA
  /\ exists lease w1,
      Acquire 0 w = Some ((Some lease, None), w1)
      /\ eval (IsPrimary 0)
              (with_net (backend (GetOk (mkBody "node-b" None))) w1)
         = Some true.
Proof.
  cbv zeta. split; [reflexivity|]. split; [reflexivity|].
  split; [reflexivity|].
  destruct (lease_outlives_backend 0%nat nodeA
              (world_of [nodeA] (GetOk (mkBody "node-a" None)) 100)
              (mkBody "node-a" None)
              (backend (GetOk (mkBody "node-b" None)))
              eq_refl eq_refl eq_refl)
    as (lease & w1 & Hrun & _ & _ & _ & Hp & _).
  exists lease, w1. split; [exact Hrun | exact Hp].
Defined.

(** X9. A Leaser that is primary resolves the primary's address to its own
    configured URL, unless its id is empty: then it is primary and
    [PrimaryURL] still returns the empty string. [PrimaryURL] never returns
    an error. *)
Theorem primary_resolves_itself (l : ptr) (v : Leaser) (w : World) :
  leasers w !! l = Some v ->
  eval (IsPrimary l) w = Some true ->
  eval (PrimaryURL l) w
  = Some (if String.eqb (id v) "" then "" else primaryURL v, None).
Proof.
  intros Hl Hp. unfold eval in *.
  rewrite (IsPrimary_run _ _ _ Hl) in Hp.
  rewrite (PrimaryURL_run _ _ _ Hl).
  cbn in Hp. injection Hp as Hp. apply String.eqb_eq in Hp.
  now rewrite Hp.
Qed.

Lemma primary_resolves_itself_witness :
  let v := {| primaryURL := "http://primary:20202"; id := "";
              primaryID := "" |} in
  let w := world_of [v] (GetErr "connection refused") 100 in
  leasers w !! 0%nat = Some v
  /\ eval (IsPrimary 0) w = Some true
  /\ eval (PrimaryURL 0) w = Some ("", None).
Proof.
  cbv zeta. split; [reflexivity|]. split; [reflexivity|].
  exact (primary_resolves_itself 0%nat
           {| primaryURL := "http://primary:20202"; id := "";
              primaryID := "" |}
           (world_of [ {| primaryURL := "http://primary:20202"; id := "";
                          primaryID := "" |} ]
                     (GetErr "connection refused") 100)
           eq_refl eq_refl).
Defined.

Lemma NewLeaser_fresh_witness :
  let w := world_of [nodeA] (GetOk (mkBody "node-b" None)) 100 in
  exists l1 w1 l2 w2 : _,
    NewLeaser "http://primary:20202" "node-b" w = Some (l1, w1)
    /\ NewLeaser "http://primary:20202" "node-c" w1 = Some (l2, w2)
    /\ l1 <> l2
    /\ leasers w2 !! 0%nat = Some nodeA.
Proof.
  cbv zeta.
  destruct (NewLeaser_fresh "http://primary:20202" "node-b"
              "http://primary:20202" "node-c"
              (world_of [nodeA] (GetOk (mkBody "node-b" None)) 100))
    as (l1 & w1 & l2 & w2 & H1 & H2 & _ & Hne & Hkeep & _).
  exists l1, w1, l2, w2. split; [exact H1|]. split; [exact H2|].
  split; [exact Hne|]. apply Hkeep. reflexivity.
Defined.

(** * Properties of the helpers of the tests *)

(** ** Integers as text *)

Module fmt_facts.

Import fmt.

Lemma digit_value_digit (d : Z) :
  0 <= d < 16 -> digit_value (digit d) = d.
Proof.
  intros Hd.
  assert (d = 0 \/ d = 1 \/ d = 2 \/ d = 3 \/ d = 4 \/ d = 5 \/ d = 6 \/ d = 7
          \/ d = 8 \/ d = 9 \/ d = 10 \/ d = 11 \/ d = 12 \/ d = 13
          \/ d = 14 \/ d = 15) as Hcases by lia.
  repeat (destruct Hcases as [-> | Hcases]; [reflexivity|]).
  subst d. reflexivity.
Qed.

Lemma pow_succ_length (base : Z) (c : ascii) (acc : string) :
  base ^ Z.of_nat (String.length (String c acc))
  = base * base ^ Z.of_nat (String.length acc).
Proof.
  cbn [String.length]. rewrite Nat2Z.inj_succ. apply Z.pow_succ_r. lia.
Qed.

(** The text written by the loop stands for the number it was given, in
    front of what was there before. *)
Lemma value_fmtUnsigned (fuel : nat) (base : Z) :
  2 <= base <= 16 ->
  forall (u : Z) (acc : string),
    0 <= u < base ^ Z.of_nat fuel ->
    value base (fmtUnsigned fuel base u acc)
    = u * base ^ Z.of_nat (String.length acc) + value base acc.
Proof.
  intros Hbase. induction fuel as [|fuel IH]; intros u acc Hu.
  - cbn in Hu. assert (u = 0) as -> by lia. cbn [fmtUnsigned]. lia.
  - cbn [fmtUnsigned]. destruct (Z.leb_spec base u) as [Hge|Hlt].
    + rewrite IH.
      * rewrite pow_succ_length. cbn [value].
        rewrite digit_value_digit
          by (pose proof (Z.mod_pos_bound u base); lia).
        rewrite (Z.div_mod u base) at 3 by lia. ring.
      * split; [apply Z.div_pos; lia|].
        apply Z.div_lt_upper_bound; [lia|].
        rewrite Nat2Z.inj_succ, Z.pow_succ_r in Hu by lia. lia.
    + cbn [value]. rewrite digit_value_digit by lia. reflexivity.
Qed.

Lemma rounds_enough (base u : Z) :
  2 <= base -> 0 <= u -> 0 <= u < base ^ Z.of_nat (rounds u).
Proof.
  intros Hbase Hu. split; [exact Hu|]. unfold rounds.
  rewrite Nat2Z.inj_succ, Z2Nat.id by apply Z.log2_nonneg.
  apply Z.lt_le_trans with (2 ^ Z.succ (Z.log2 u)).
  - destruct (Z.eq_dec u 0) as [->|Hne]; [reflexivity|].
    apply Z.log2_spec. lia.
  - apply Z.pow_le_mono_l. lia.
Qed.

Lemma value_fmtInteger (base n : Z) :
  2 <= base <= 16 -> 0 <= n -> value base (fmtInteger base n) = n.
Proof.
  intros Hbase Hn. unfold fmtInteger.
  destruct (Z.ltb_spec n 0) as [Hneg|_]; [lia|].
  rewrite value_fmtUnsigned by (auto; apply rounds_enough; lia).
  cbn. lia.
Qed.

Lemma fmtUnsigned_nonempty (fuel : nat) (base u : Z) (acc : string) :
  fmtUnsigned (S fuel) base u acc <> "".
Proof.
  revert u acc. induction fuel as [|fuel IH]; intros u acc.
  - cbn. destruct (base <=? u); discriminate.
  - change (fmtUnsigned (S (S fuel)) base u acc)
      with (if base <=? u
            then fmtUnsigned (S fuel) base (u / base)
                   (String (digit (u mod base)) acc)
            else String (digit u) acc).
    destruct (base <=? u); [apply IH | discriminate].
Qed.

Lemma Sprintf_d_injective (p q : Z) :
  0 <= p -> 0 <= q -> Sprintf_d p = Sprintf_d q -> p = q.
Proof.
  intros Hp Hq Heq. apply (f_equal (value 10)) in Heq. unfold Sprintf_d in Heq.
  now rewrite !value_fmtInteger in Heq by lia.
Qed.

End fmt_facts.

Lemma Sprintf_round_trip_key (n m : Z) :
  0 <= n -> 0 <= m ->
  (fmt.Sprintf_x n = fmt.Sprintf_x m -> n = m) /\ fmt.Sprintf_x n <> "".
Proof.
  intros Hn Hm. split.
  - intros Heq. apply (f_equal (fmt.value 16)) in Heq.
    unfold fmt.Sprintf_x in Heq.
    now rewrite !fmt_facts.value_fmtInteger in Heq by lia.
  - unfold fmt.Sprintf_x, fmt.fmtInteger.
    destruct (n <? 0); [discriminate|]. apply fmt_facts.fmtUnsigned_nonempty.
Qed.

(** X10. [%x] and [%d] write a non-negative integer as a nonempty text
    that stands for this integer in base 16 and base 10; so two
    non-negative integers with the same text are equal. *)
Theorem Sprintf_round_trip (n m : Z) :
  0 <= n ->
  0 <= m ->
  fmt.value 16 (fmt.Sprintf_x n) = n
  /\ fmt.value 10 (fmt.Sprintf_d n) = n
  /\ fmt.Sprintf_x n <> ""
  /\ fmt.Sprintf_d n <> ""
  /\ (fmt.Sprintf_x n = fmt.Sprintf_x m -> n = m)
  /\ (fmt.Sprintf_d n = fmt.Sprintf_d m -> n = m).
Proof.
  intros Hn Hm.
  assert (forall base k, 2 <= base <= 16 -> 0 <= k ->
                         fmt.fmtInteger base k <> "") as Hne.
  { intros base k _ Hk. unfold fmt.fmtInteger.
    destruct (k <? 0); [discriminate|]. apply fmt_facts.fmtUnsigned_nonempty. }
  split; [apply fmt_facts.value_fmtInteger; lia|].
  split; [apply fmt_facts.value_fmtInteger; lia|].
  split; [apply Hne; lia|]. split; [apply Hne; lia|]. split.
  - intros Heq. apply (f_equal (fmt.value 16)) in Heq.
    unfold fmt.Sprintf_x in Heq.
    now rewrite !fmt_facts.value_fmtInteger in Heq by lia.
  - intros Heq. apply (f_equal (fmt.value 10)) in Heq.
    unfold fmt.Sprintf_d in Heq.
    now rewrite !fmt_facts.value_fmtInteger in Heq by lia.
Qed.

Lemma Sprintf_round_trip_witness :
  0 <= 48879
  /\ fmt.Sprintf_x 48879 = "beef"
  /\ fmt.Sprintf_d 20202 = "20202"
  /\ fmt.Sprintf_x 0 = "0"
  /\ fmt.value 16 (fmt.Sprintf_x 48879) = 48879.
Proof.
  split; [discriminate|]. do 3 (split; [reflexivity|]).
  assert (0 <= 48879) as H by discriminate.
  exact (proj1 (Sprintf_round_trip 48879 48879 H H)).
Defined.

(** ** The nodes a test starts *)

Import main_test main_helpers.

(** X11. A node started with a peer contends for the peer's key, whatever
    [main.NewMain] preset and whatever else it is given, so a chain of nodes
    started through one another shares the key of the first; two nodes
    started without a peer get the same key exactly when [rand.Int31]
    returned the same number to both, and that key is never empty. *)
Theorem newMain_keys (c0 c0' : Config) (dir dir' : string) (dbg dbg' : bool)
    (rnd rnd' : Z) :
  int31_range rnd ->
  int31_range rnd' ->
  (forall p,
      Key (Consul (newMain_Config c0 dir dbg (Some p) rnd)) = Key (Consul p))
  /\ (forall p,
         Key (Consul (newMain_Config c0 dir dbg
                        (Some (newMain_Config c0' dir' dbg' (Some p) rnd'))
                        rnd))
         = Key (Consul p))
  /\ (Key (Consul (newMain_Config c0 dir dbg None rnd))
      = Key (Consul (newMain_Config c0' dir' dbg' None rnd'))
      <-> rnd = rnd')
  /\ Key (Consul (newMain_Config c0 dir dbg None rnd)) <> "".
Proof.
  intros [Hr _] [Hr' _].
  destruct (Sprintf_round_trip_key rnd rnd' Hr Hr') as (Hinj & Hne).
  split; [reflexivity|]. split; [reflexivity|]. split.
  - cbn [newMain_Config Consul Key]. split; [exact Hinj | now intros ->].
  - exact Hne.
Qed.

Lemma newMain_keys_witness :
  int31_range 48879
  /\ int31_range 51966
  /\ Key (Consul (newMain_Config
                    (mkConfig "" false (mkHTTP "") (mkConsul "" "" 0 0))
                    "/tmp/a" false None 48879)) = "beef"
  /\ Key (Consul (newMain_Config
                    (mkConfig "" false (mkHTTP "") (mkConsul "" "" 0 0))
                    "/tmp/a" false None 48879)) <> "".
Proof.
  assert (int31_range 48879) as H1 by (split; [discriminate | reflexivity]).
  assert (int31_range 51966) as H2 by (split; [discriminate | reflexivity]).
  split; [exact H1|]. split; [exact H2|]. split; [reflexivity|].
  exact (proj2 (proj2 (proj2
           (newMain_keys (mkConfig "" false (mkHTTP "") (mkConsul "" "" 0 0))
              (mkConfig "" false (mkHTTP "") (mkConsul "" "" 0 0))
              "/tmp/a" "/tmp/b" false false 48879 51966 H1 H2)))).
Defined.

(** X12. Nodes that listen on different ports advertise different URLs. *)
Theorem AdvertiseURLFn_injective (p q : Z) :
  0 <= p ->
  0 <= q ->
  AdvertiseURLFn p = AdvertiseURLFn q ->
  p = q.
Proof.
  intros Hp Hq Heq. unfold AdvertiseURLFn in Heq. cbn [append] in Heq.
  injection Heq as Heq.
  now apply (fmt_facts.Sprintf_d_injective p q Hp Hq).
Qed.

Lemma AdvertiseURLFn_injective_witness :
  0 <= 20202
  /\ AdvertiseURLFn 20202 = "http://localhost:20202"
  /\ (AdvertiseURLFn 20202 = AdvertiseURLFn 20202 -> 20202 = 20202).
Proof.
  assert (0 <= 20202) as H by discriminate.
  split; [exact H|]. split; [reflexivity|].
  exact (AdvertiseURLFn_injective 20202 20202 H H).
Defined.

(** ** Waiting for the nodes to agree *)

Lemma syncLoop_None (dbID txID : Z) (mains : list Store) :
  forall i,
    syncLoop dbID txID i mains = None
    <-> Forall (fun m => m dbID = Some txID) mains.
Proof.
  induction mains as [|m rest IH]; intros i; cbn [syncLoop].
  - split; [constructor | reflexivity].
  - destruct (m dbID) as [got|] eqn:Hm.
    + destruct (Z.eqb_spec got txID) as [->|Hne]; cbn [negb].
      * rewrite IH. split; [now constructor|]. intros H.
        now apply Forall_cons_1 in H.
      * split; [discriminate|]. intros H. apply Forall_cons_1 in H.
        destruct H as [H _]. congruence.
    + split; [discriminate|]. intros H. apply Forall_cons_1 in H.
      destruct H as [H _]. congruence.
Qed.

Lemma syncLoop_first (dbID txID : Z) (mains : list Store) :
  forall (k i : nat) (m : Store),
    mains !! i = Some m ->
    (forall (j : nat) mj, (j < i)%nat -> mains !! j = Some mj ->
                          mj dbID = Some txID) ->
    syncLoop dbID txID k mains
    = match m dbID with
      | None =>
          Some ("no database on main["
                ++ fmt.Sprintf_d (Z.of_nat (k + i)) ++ "]")
      | Some got =>
          if negb (got =? txID)
          then Some ("waiting for sync on db(" ++ fmt.Sprintf_d dbID
                     ++ "): [" ++ fmt.Sprintf_d got ++ ","
                     ++ fmt.Sprintf_d txID ++ "]")
          else syncLoop dbID txID (S (k + i)) (drop (S i) mains)
      end.
Proof.
  induction mains as [|m0 rest IH]; intros k i m Hi Hbefore.
  - discriminate.
  - destruct i as [|i].
    + cbn in Hi. injection Hi as ->. cbn [syncLoop].
      rewrite Nat.add_0_r. cbn [drop]. reflexivity.
    + cbn in Hi. cbn [syncLoop].
      assert (m0 dbID = Some txID) as H0
        by (apply (Hbefore 0%nat); [lia | reflexivity]).
      rewrite H0, Z.eqb_refl. cbn [negb].
      rewrite (IH (S k) i m Hi).
      * replace (S k + i)%nat with (k + S i)%nat by lia. reflexivity.
      * intros j mj Hj Hlook. apply (Hbefore (S j)); [lia | exact Hlook].
Qed.


(** X14. One attempt of [waitForSync] reports the first node that is not
    where the first node is: when every node before the [i]-th is at the
    TXID of [mains[0]], it returns "no database on main[i]" if the [i]-th
    has no such database, and "waiting for sync" with the two TXIDs if the
    [i]-th is at another TXID. *)
Theorem waitForSync_first_failure (dbID txID : Z) (mains : list Store)
    (i : nat) (m0 m : Store) :
  mains !! 0%nat = Some m0 ->
  mains !! i = Some m ->
  (i = 0%nat \/ m0 dbID = Some txID) ->
  (forall (j : nat) mj, (j < i)%nat -> mains !! j = Some mj ->
                        mj dbID = Some txID) ->
  (m dbID = None ->
   waitForSync_attempt dbID mains
   = Some (inl ("no database on main[" ++ fmt.Sprintf_d (Z.of_nat i) ++ "]")))
  /\ (forall got, m dbID = Some got -> got <> txID -> m0 dbID = Some txID ->
        waitForSync_attempt dbID mains
        = Some (inl ("waiting for sync on db(" ++ fmt.Sprintf_d dbID
                     ++ "): [" ++ fmt.Sprintf_d got ++ ","
                     ++ fmt.Sprintf_d txID ++ "]"))).
Proof.
  intros H0 Hi Hfirst Hbefore.
  destruct mains as [|m0' rest]; [discriminate|].
  cbn in H0. injection H0 as ->. split.
  - intros Hnone. unfold waitForSync_attempt.
    destruct Hfirst as [-> | Hm0].
    + cbn in Hi. injection Hi as ->. now rewrite Hnone.
    + rewrite Hm0.
      rewrite (syncLoop_first dbID txID (m0 :: rest) 0 i m Hi Hbefore).
      now rewrite Hnone.
  - intros got Hgot Hne Hm0. unfold waitForSync_attempt. rewrite Hm0.
    rewrite (syncLoop_first dbID txID (m0 :: rest) 0 i m Hi Hbefore).
    rewrite Hgot. apply Z.eqb_neq in Hne. now rewrite Hne.
Qed.

Lemma waitForSync_first_failure_witness :
  let at_tx (tx : Z) : Store := fun d => if d =? 1 then Some tx else None in
  let mains := [at_tx 7; at_tx 7; at_tx 6; (fun _ => None)] in
  mains !! 0%nat = Some (at_tx 7)
  /\ mains !! 2%nat = Some (at_tx 6)
  /\ at_tx 6 1 = Some 6
  /\ 6 <> 7
  /\ waitForSync_attempt 1 mains
     = Some (inl "waiting for sync on db(1): [6,7]").
Proof.
  cbv zeta. split; [reflexivity|]. split; [reflexivity|].
  split; [reflexivity|]. split; [discriminate|].
  refine (proj2 (waitForSync_first_failure 1 7
                   [ (fun d => if d =? 1 then Some 7 else None);
                     (fun d => if d =? 1 then Some 7 else None);
                     (fun d => if d =? 1 then Some 6 else None);
                     (fun _ => None) ]
                   2 (fun d => if d =? 1 then Some 7 else None)
                   (fun d => if d =? 1 then Some 6 else None)
                   eq_refl eq_refl (or_intror eq_refl) _)
                6 eq_refl _ eq_refl); [|discriminate].
  intros j mj Hj Hlook.
  destruct j as [|[|j]]; [| |lia]; cbn in Hlook; injection Hlook as <-;
    reflexivity.
Defined.

